(** * Voice-over production tool: the script pipeline of [main.py]

    A shallow embedding of [main.py] and the properties its specification
    states about it.  Python [str] values are lists of Unicode code points;
    the speech provider, the file system and the process environment are
    an interface ([Platform]) the program is parameterised by; every call
    the program makes to them is recorded in a trace. *)

From Stdlib Require Import String Ascii.
From Stdlib Require Import List NArith Arith Bool Lia.
From Stdlib Require Decimal DecimalString DecimalNat.
Import ListNotations.

Set Implicit Arguments.

(** ** Python string primitives *)

Module Py.

Local Open Scope N_scope.

(** A [str] is a sequence of code points. *)
Definition char := N.
Definition str := list char.

(** A string literal of the source, as code points. *)
Definition u (s : string) : str := map N_of_ascii (list_ascii_of_string s).

Definition str_eqb (a b : str) : bool :=
  if list_eq_dec N.eq_dec a b then true else false.

(** Truth value of a string: [if s], [if not s]. *)
Definition truthy (s : str) : bool :=
  match s with [] => false | _ :: _ => true end.

Definition LF : char := 0x0A%N.
Definition CR : char := 0x0D%N.
Definition SP : char := 0x20%N.
Definition COLON : char := 0x3A%N.
Definition LBRACKET : char := 0x5B%N.
Definition RBRACKET : char := 0x5D%N.
Definition SLASH : char := 0x2F%N.

Definition between (lo hi c : char) : bool := (lo <=? c)%N && (c <=? hi)%N.

(** [str.isspace] on one code point; [str.strip()] and the class [\s] of
    [re] on [str] patterns both use it. *)
Definition is_space (c : char) : bool :=
  between 0x09 0x0D c || between 0x1C 0x20 c || (c =? 0x85)%N || (c =? 0xA0)%N
  || (c =? 0x1680)%N || between 0x2000 0x200A c || (c =? 0x2028)%N
  || (c =? 0x2029)%N || (c =? 0x202F)%N || (c =? 0x205F)%N || (c =? 0x3000)%N.

(** Line boundaries of [str.splitlines()]. *)
Definition is_linebreak (c : char) : bool :=
  between 0x0A 0x0D c || between 0x1C 0x1E c || (c =? 0x85)%N
  || (c =? 0x2028)%N || (c =? 0x2029)%N.

(** [s.lstrip()], [s.rstrip()], [s.strip()]. *)
Fixpoint lstrip (s : str) : str :=
  match s with
  | [] => []
  | c :: r => if is_space c then lstrip r else s
  end.

Definition rstrip (s : str) : str := rev (lstrip (rev s)).

Definition strip (s : str) : str := rstrip (lstrip s).

(** [s.splitlines()]: [cur] holds the current line reversed, [after_cr]
    tells that the previous character was a carriage return, so that a
    line feed right after it belongs to the same boundary.  A line is
    emitted at each boundary, and at the end of the text when characters
    are pending. *)
Fixpoint splitlines_from (after_cr : bool) (cur : str) (s : str) : list str :=
  match s with
  | [] => match cur with [] => [] | _ :: _ => [rev cur] end
  | c :: r =>
      if after_cr && (c =? LF)%N then splitlines_from false cur r
      else if is_linebreak c then rev cur :: splitlines_from (c =? CR)%N [] r
      else splitlines_from false (c :: cur) r
  end.

Definition splitlines (s : str) : list str := splitlines_from false [] s.

(** [s.split(sep, 1)] for a one-character separator. *)
Fixpoint split1 (sep : char) (s : str) : list str :=
  match s with
  | [] => [[]]
  | c :: r =>
      if (c =? sep)%N then [[]; r]
      else match split1 sep r with
           | h :: t => (c :: h) :: t
           | [] => [[c]]
           end
  end.

(** [s.endswith(t)]. *)
Fixpoint startswith (s t : str) : bool :=
  match t, s with
  | [], _ => true
  | _ :: _, [] => false
  | b :: t', a :: s' => (a =? b)%N && startswith s' t'
  end.

Definition endswith (s t : str) : bool := startswith (rev s) (rev t).

(** [sep.join(xs)]. *)
Fixpoint join (sep : str) (xs : list str) : str :=
  match xs with
  | [] => []
  | [x] => x
  | x :: r => x ++ sep ++ join sep r
  end.

(** [f"{n}"] for a non-negative integer. *)
Definition str_of_nat (n : nat) : str := u (DecimalString.NilEmpty.string_of_uint (Nat.to_uint n)).

(** [f"{n:03d}"]: the decimal digits, padded on the left with zeros to a
    width of at least three. *)
Definition format_03d (n : nat) : str :=
  let d := str_of_nat n in
  repeat 0x30 (3 - length d)%nat ++ d.

(** [posixpath.join(a, b)]. *)
Definition path_join (a b : str) : str :=
  if startswith b [SLASH] then b
  else if negb (truthy a) || endswith a [SLASH] then a ++ b
  else a ++ [SLASH] ++ b.

(** *** The two regular-expression substitutions of the program *)

(** Where the pattern [.*?\]] matches at the head of [s]: the number of
    characters it consumes.  The lazy [.*?] takes as few characters as it
    can, so the match ends at the first closing bracket; [.] does not
    match a line feed (no DOTALL flag), so there is no match when a line
    feed comes before that bracket. *)
Fixpoint match_to_close (s : str) : option nat :=
  match s with
  | [] => None
  | c :: r =>
      if (c =? RBRACKET)%N then Some 1%nat
      else if (c =? LF)%N then None
      else option_map S (match_to_close r)
  end.

(** [re.sub(r'\[.*?\]', '', s)]: scan from the left; [skip] counts the
    characters of the current match that are still to be dropped. *)
Fixpoint sub_brackets_from (skip : nat) (s : str) : str :=
  match s with
  | [] => []
  | c :: r =>
      match skip with
      | S k => sub_brackets_from k r
      | O =>
          if (c =? LBRACKET)%N then
            match match_to_close r with
            | Some n => sub_brackets_from n r
            | None => c :: sub_brackets_from 0%nat r
            end
          else c :: sub_brackets_from 0%nat r
      end
  end.

Definition sub_brackets (s : str) : str := sub_brackets_from 0%nat s.

(** [re.sub(r'\s+', ' ', s)]: [in_run] tells that the previous character
    belonged to the whitespace run already replaced. *)
Fixpoint sub_spaces_from (in_run : bool) (s : str) : str :=
  match s with
  | [] => []
  | c :: r =>
      if is_space c then
        if in_run then sub_spaces_from true r else SP :: sub_spaces_from true r
      else c :: sub_spaces_from false r
  end.

Definition sub_spaces (s : str) : str := sub_spaces_from false s.

End Py.

Import Py.

(** ** The world outside the program *)

(** The outcome of a call that may raise: the value, or the text [str(e)]
    of the exception (an instance of [Exception]). *)
Inductive result (A : Type) : Type :=
| Ok (a : A)
| Raised (msg : str).

Arguments Ok {A} a.
Arguments Raised {A} msg.

Definition bytes := list N.

(** What the program is given: the process environment, [str.lower], the
    Vertex AI client and the file system, over a state [PS] of their own.
    The model object that [from_pretrained] returns is known by the name
    of its voice, which [predict] takes again; [write_file] is the
    [open] and the [write] of lines 58-59 together. *)
Record Platform (PS : Type) : Type := {
  environ_get : str -> option str;
  str_lower : str -> str;
  vertexai_init : str -> str -> PS -> result unit * PS;
  from_pretrained : str -> PS -> result unit * PS;
  predict : str -> str -> PS -> result bytes * PS;
  write_file : str -> bytes -> PS -> result unit * PS;
  path_exists : str -> PS -> bool;
  listdir : str -> PS -> result (list str);
  remove : str -> PS -> result unit * PS
}.

(** The calls the program makes, in order. *)
Inductive Event : Type :=
| Print (line : str)
| VertexInit (project location : str)
| FromPretrained (voice : str)
| Predict (voice text : str)
| WriteFile (path : str) (data : bytes) (done : bool)
| Remove (path : str) (done : bool).

Record World (PS : Type) : Type := { ext : PS; trace : list Event }.

(** Computations of the program: state passing over the world. *)
Definition M (PS A : Type) : Type := World PS -> A * World PS.

Definition ret {PS A} (a : A) : M PS A := fun w => (a, w).

Definition bind {PS A B} (m : M PS A) (k : A -> M PS B) : M PS B :=
  fun w => let (a, w') := m w in k a w'.

Notation "x <- c1 ;; c2" := (bind c1 (fun x => c2))
  (at level 61, c1 at next level, right associativity).
Notation "c1 ;;; c2" := (bind c1 (fun _ => c2))
  (at level 61, right associativity).

Definition is_ok {A} (r : result A) : bool :=
  match r with Ok _ => true | Raised _ => false end.

(** One call to the platform: run it on the external state and log it. *)
Definition call {PS A} (f : PS -> result A * PS) (ev : result A -> Event) : M PS (result A) :=
  fun w => let (r, e) := f (ext w) in
           (r, {| ext := e; trace := trace w ++ [ev r] |}).

Definition print {PS} (line : str) : M PS unit :=
  fun w => (tt, {| ext := ext w; trace := trace w ++ [Print line] |}).

Definition opt_truthy (o : option str) : bool :=
  match o with Some s => truthy s | None => false end.

(** [d.get(k)] on a dict given by its items, the keys of which differ. *)
Fixpoint dict_get (d : list (str * str)) (k : str) : option str :=
  match d with
  | [] => None
  | (k', v) :: r => if str_eqb k k' then Some v else dict_get r k
  end.

(** The uploaded file: its name, and what [read().decode('utf-8')] gives. *)
Record ScriptFile : Type := { name : str; read_decoded : result str }.

(** The variables of the loop of [generate_voice_over]. *)
Record LoopState : Type := {
  output_html : str;
  error_summary : list str;
  audio_files_generated_count : nat;
  line_processed_count : nat
}.

(** ** The program *)

Definition CHARACTER_VOICES : list (str * str) :=
  [ (u "Krishna", u "text-to-speech-en-in-standard-c");
    (u "Radha", u "text-to-speech-en-in-wavenet-d");
    (u "Ganesha", u "text-to-speech-en-us-wavenet-e");
    (u "Narrator", u "text-to-speech-en-us-wavenet-f");
    (u "Friend1", u "text-to-speech-en-us-standard-c");
    (u "Friend2", u "text-to-speech-en-au-wavenet-b") ].

(** Lines 89-90: the dialogue without director notes. *)
Definition clean (original_dialogue : str) : str :=
  sub_spaces (strip (sub_brackets original_dialogue)).

(** Line 85: the test of a malformed line on [line.split(':', 1)]. *)
Definition malformed (parts : list str) : bool :=
  (length parts <? 2) || negb (truthy (strip (nth 0 parts [])))
  || negb (truthy (strip (nth 1 parts []))).

(** The entries of [error_summary] (lines 86, 93 and 102); [n] is the
    [i+1] of the source. *)
Definition format_error_entry (n : nat) (line : str) : str :=
  u "Line " ++ str_of_nat n ++ u " (Format Error): '" ++ line ++ u "'".

Definition not_configured_entry (n : nat) (character_name : str) : str :=
  u "Line " ++ str_of_nat n ++ u ": Character '" ++ character_name
  ++ u "' not configured.".

Definition line_error_entry (n : nat) (character_name error_message : str) : str :=
  u "Line " ++ str_of_nat n ++ u " (" ++ character_name ++ u "): "
  ++ error_message.

(** Messages of [generate_audio_for_line] (lines 54 and 63). *)
Definition no_text_message : str :=
  u "No dialogue text remaining after removing brackets.".

Definition api_error_message (character_name e : str) : str :=
  u "API Error for '" ++ character_name ++ u "': " ++ e.

(** Line 100: the rendering of one generated line. *)
Definition html_entry (character_name original_dialogue filename : str) : str :=
  u "<p><strong>" ++ character_name ++ u ":</strong> " ++ original_dialogue
  ++ u "</p><audio controls src='file=" ++ filename ++ u "'></audio><br><br>".

Definition add_error (st : LoopState) (entry : str) : LoopState :=
  {| output_html := output_html st;
     error_summary := error_summary st ++ [entry];
     audio_files_generated_count := audio_files_generated_count st;
     line_processed_count := line_processed_count st |}.

Definition count_line (st : LoopState) : LoopState :=
  {| output_html := output_html st;
     error_summary := error_summary st;
     audio_files_generated_count := audio_files_generated_count st;
     line_processed_count := line_processed_count st + 1 |}.

Definition add_audio (st : LoopState) (entry : str) : LoopState :=
  {| output_html := output_html st ++ entry;
     error_summary := error_summary st;
     audio_files_generated_count := audio_files_generated_count st + 1;
     line_processed_count := line_processed_count st |}.

Definition initial_state : LoopState :=
  {| output_html := []; error_summary := [];
     audio_files_generated_count := 0; line_processed_count := 0 |}.

Section Program.

Variable PS : Type.
Variable P : Platform PS.

(** Lines 28-31. *)
Definition OUTPUT_DIR : str :=
  if opt_truthy (environ_get P (u "K_SERVICE")) then u "/tmp/voice_overs"
  else u "voice_overs".

(** [initialize_vertex_ai]: [Raised] stands for the [ValueError] and the
    [RuntimeError] it raises, which its caller handles alike. *)
Definition initialize_vertex_ai : M PS (result unit) :=
  let project_id := environ_get P (u "GCP_PROJECT_ID") in
  let location :=
    match environ_get P (u "GCP_LOCATION") with
    | Some l => l
    | None => u "us-central1"
    end in
  match project_id with
  | Some pid =>
      if truthy pid then
        print (u "Initializing Vertex AI...") ;;;
        r <- call (vertexai_init P pid location) (fun _ => VertexInit pid location) ;;
        match r with
        | Ok _ =>
            print (u "Vertex AI initialized successfully for project: " ++ pid) ;;;
            ret (Ok tt)
        | Raised e =>
            ret (Raised (u "Vertex AI Init Failed. Check Service Account permissions. Original error: " ++ e))
        end
      else ret (Raised (u "Configuration Error: GCP_PROJECT_ID environment variable is not set. Please set it in the Cloud Run deployment settings."))
  | None => ret (Raised (u "Configuration Error: GCP_PROJECT_ID environment variable is not set. Please set it in the Cloud Run deployment settings."))
  end.

(** [generate_audio_for_line]. *)
Definition generate_audio_for_line
    (character_name voice_model_name dialogue_text output_filename : str)
  : M PS (bool * str) :=
  if negb (truthy dialogue_text) then ret (false, no_text_message)
  else
    m <- call (from_pretrained P voice_model_name)
              (fun _ => FromPretrained voice_model_name) ;;
    match m with
    | Raised e => ret (false, api_error_message character_name e)
    | Ok _ =>
        response <- call (predict P voice_model_name dialogue_text)
                         (fun _ => Predict voice_model_name dialogue_text) ;;
        match response with
        | Raised e => ret (false, api_error_message character_name e)
        | Ok audio_data =>
            f <- call (write_file P output_filename audio_data)
                      (fun r => WriteFile output_filename audio_data (is_ok r)) ;;
            match f with
            | Raised e => ret (false, api_error_message character_name e)
            | Ok _ => ret (true, [])
            end
        end
    end.

(** The body of the loop of [generate_voice_over] (lines 81-102) on the
    [i]-th line of the script. *)
Definition loop_body (i : nat) (line : str) (st : LoopState) : M PS LoopState :=
  let line := strip line in
  if negb (truthy line) then ret st
  else
    let st := count_line st in
    let parts := split1 COLON line in
    if malformed parts then ret (add_error st (format_error_entry (i + 1) line))
    else
      let character_name := strip (nth 0 parts []) in
      let original_dialogue := strip (nth 1 parts []) in
      let cleaned_dialogue := clean original_dialogue in
      let voice_model_name := dict_get CHARACTER_VOICES character_name in
      match voice_model_name with
      | None => ret (add_error st (not_configured_entry (i + 1) character_name))
      | Some voice =>
          if negb (truthy voice) then
            ret (add_error st (not_configured_entry (i + 1) character_name))
          else
            let filename :=
              path_join OUTPUT_DIR
                (format_03d (line_processed_count st) ++ u "_" ++ character_name
                 ++ u ".mp3") in
            r <- generate_audio_for_line character_name voice cleaned_dialogue filename ;;
            let (success, error_message) := r in
            if success then
              ret (add_audio st (html_entry character_name original_dialogue filename))
            else
              ret (add_error st (line_error_entry (i + 1) character_name error_message))
      end.

(** [for i, line in enumerate(lines)], from index [i] on. *)
Fixpoint for_lines (i : nat) (lines : list str) (st : LoopState) : M PS LoopState :=
  match lines with
  | [] => ret st
  | line :: rest => st' <- loop_body i line st ;; for_lines (S i) rest st'
  end.

(** Lines 104-105. *)
Definition status_message (st : LoopState) : str :=
  let base :=
    u "Processed " ++ str_of_nat (line_processed_count st) ++ u " lines. Generated "
    ++ str_of_nat (audio_files_generated_count st) ++ u " files." in
  match error_summary st with
  | [] => base
  | _ :: _ =>
      base ++ u "<br><br><strong>Errors:</strong><br>"
      ++ join (u "<br>") (error_summary st)
  end.

(** What the three outputs of the interface receive: the status, the
    rendering, and whether the clear button is visible. *)
Definition Outputs : Type := (str * str * bool)%type.

(** Lines 104-107. *)
Definition report (st : LoopState) : Outputs :=
  (status_message st,
   if truthy (output_html st) then output_html st
   else u "No audio generated. Check status for errors.",
   0 <? audio_files_generated_count st).

(** [generate_voice_over]. *)
Definition generate_voice_over (script_file_obj : option ScriptFile) : M PS Outputs :=
  match script_file_obj with
  | None => ret (u "Please upload a script file.", [], false)
  | Some f =>
      if negb (endswith (str_lower P (name f)) (u ".txt")) then
        ret (u "Invalid File Type: Please upload a .txt file.", [], false)
      else
        r <- initialize_vertex_ai ;;
        match r with
        | Raised e => ret (e, [], false)
        | Ok _ =>
            match read_decoded f with
            | Raised e => ret (u "Error reading script file: " ++ e, [], false)
            | Ok script_content =>
                st <- for_lines 0 (splitlines script_content) initial_state ;;
                ret (report st)
            end
        end
  end.

(** The loop of [clear_generated_files] (lines 113-115). *)
Fixpoint remove_all (filenames : list str) (deleted_count : nat) : M PS nat :=
  match filenames with
  | [] => ret deleted_count
  | filename :: rest =>
      r <- call (remove P (path_join OUTPUT_DIR filename))
                (fun r => Remove (path_join OUTPUT_DIR filename) (is_ok r)) ;;
      match r with
      | Ok _ => remove_all rest (deleted_count + 1)
      | Raised e =>
          print (u "Error deleting file " ++ filename ++ u ": " ++ e) ;;;
          remove_all rest deleted_count
      end
  end.

(** [clear_generated_files]; [os.listdir] is outside any [try], so what it
    raises leaves the function. *)
Definition clear_generated_files : M PS (result Outputs) :=
  fun w =>
    if negb (path_exists P OUTPUT_DIR (ext w)) then
      (Ok (u "Directory does not exist.", [], false), w)
    else
      match listdir P OUTPUT_DIR (ext w) with
      | Raised e => (Raised e, w)
      | Ok filenames =>
          let (deleted_count, w') := remove_all filenames 0 w in
          (Ok (u "Cleared " ++ str_of_nat deleted_count ++ u " files.", [], false), w')
      end.

End Program.

Arguments OUTPUT_DIR {PS} P.
Arguments initialize_vertex_ai {PS} P.
Arguments generate_audio_for_line {PS} P.
Arguments loop_body {PS} P.
Arguments for_lines {PS} P.
Arguments generate_voice_over {PS} P.
Arguments remove_all {PS} P.
Arguments clear_generated_files {PS} P.

(** ** A platform to run the program on

    The external state is the content of the output directory ([None]
    when the directory is absent).  The provider answers every request
    but those for one voice; a file whose name ends in [locked] cannot be
    removed. *)
Module Demo.

Definition lower_char (c : char) : char :=
  if between 0x41%N 0x5A%N c then (c + 32)%N else c.

Definition FS : Type := option (list str).

Definition basename_in (dir path : str) : str := skipn (length dir + 1) path.

Definition platform (env : str -> option str) (bad_voice : str) : Platform FS :=
  {| environ_get := env;
     str_lower := map lower_char;
     vertexai_init := fun _ _ fs => (Ok tt, fs);
     from_pretrained := fun _ fs => (Ok tt, fs);
     predict := fun voice text fs =>
       if str_eqb voice bad_voice then (Raised (u "429 quota exceeded"), fs)
       else (Ok (text ++ [0%N]), fs);
     write_file := fun path _ fs =>
       match fs with
       | Some names => (Ok tt, Some (names ++ [path]))
       | None => (Raised (u "No such file or directory"), fs)
       end;
     path_exists := fun _ fs => match fs with Some _ => true | None => false end;
     listdir := fun dir fs =>
       match fs with
       | Some names => Ok (map (basename_in dir) names)
       | None => Raised (u "No such file or directory")
       end;
     remove := fun path fs =>
       if endswith path (u "locked") then (Raised (u "Permission denied"), fs)
       else (Ok tt, option_map (filter (fun n => negb (str_eqb n path))) fs) |}.

(** A platform on which nothing raises; the state is the list of the
    files of the output directory. *)
Definition steady (env : str -> option str) : Platform (list str) :=
  {| environ_get := env;
     str_lower := map lower_char;
     vertexai_init := fun _ _ fs => (Ok tt, fs);
     from_pretrained := fun _ fs => (Ok tt, fs);
     predict := fun _ text fs => (Ok (text ++ [0%N]), fs);
     write_file := fun path _ fs => (Ok tt, fs ++ [path]);
     path_exists := fun _ _ => true;
     listdir := fun dir fs => Ok (map (basename_in dir) fs);
     remove := fun path fs =>
       (Ok tt, filter (fun n => negb (str_eqb n path)) fs) |}.

Definition env_ok (k : str) : option str :=
  if str_eqb k (u "GCP_PROJECT_ID") then Some (u "buddy-tales") else None.

Definition env_missing (k : str) : option str := None.

Definition world (fs : FS) : World FS := {| ext := fs; trace := [] |}.

Definition script (content : string) : option ScriptFile :=
  Some {| name := u "Script.TXT"; read_decoded := Ok (u content) |}.

End Demo.

(** ** The vocabulary of the specification *)

(** A Dialogue Record: what lines 88-90 bind for a line that splits. *)
Record DialogueRecord : Type := {
  line_number : nat;
  character : str;
  original_text : str;
  cleaned_text : str
}.

(** The Line Parser on one line of the script: lines 81-90 of the loop. *)
Inductive Parsed : Type :=
| Blank
| FormatError (entry : str)
| Dialogue (r : DialogueRecord).

Definition parse_line (i : nat) (line : str) : Parsed :=
  let line := strip line in
  if negb (truthy line) then Blank
  else
    let parts := split1 COLON line in
    if malformed parts then FormatError (format_error_entry (i + 1) line)
    else
      Dialogue {| line_number := i + 1;
                  character := strip (nth 0 parts []);
                  original_text := strip (nth 1 parts []);
                  cleaned_text := clean (strip (nth 1 parts [])) |}.

(** The name of an artifact: line 95 with the counter at [k]. *)
Definition artifact_path {PS} (P : Platform PS) (k : nat) (character_name : str) : str :=
  path_join (OUTPUT_DIR P) (format_03d k ++ u "_" ++ character_name ++ u ".mp3").

(** Resolver, client and bookkeeping on one record: lines 91-102. *)
Definition process_record {PS} (P : Platform PS) (r : DialogueRecord) (st : LoopState)
  : M PS LoopState :=
  match dict_get CHARACTER_VOICES (character r) with
  | None => ret (add_error st (not_configured_entry (line_number r) (character r)))
  | Some voice =>
      if negb (truthy voice) then
        ret (add_error st (not_configured_entry (line_number r) (character r)))
      else
        let filename := artifact_path P (line_processed_count st) (character r) in
        res <- generate_audio_for_line P (character r) voice (cleaned_text r) filename ;;
        let (success, error_message) := res in
        if success then
          ret (add_audio st (html_entry (character r) (original_text r) filename))
        else
          ret (add_error st (line_error_entry (line_number r) (character r) error_message))
  end.

(** A line counts as processed when it is not blank. *)
Definition nonblank (line : str) : bool := truthy (strip line).

Definition count_nonblank (lines : list str) : nat := length (filter nonblank lines).

(** State and world once the first [lines] of a script went through the loop. *)
Definition after {PS} (P : Platform PS) (lines : list str) (w : World PS)
  : LoopState * World PS :=
  for_lines P 0 lines initial_state w.

(** The artifacts of a trace: the paths written in full. *)
Definition artifacts (t : list Event) : list str :=
  flat_map (fun e => match e with WriteFile p _ true => [p] | _ => [] end) t.

(** The calls of a trace that belong to the processing of a line. *)
Definition per_line_calls (t : list Event) : list Event :=
  filter (fun e => match e with
                   | FromPretrained _ | Predict _ _ | WriteFile _ _ _ => true
                   | _ => false
                   end) t.

(** The deletions of a trace, attempted and done. *)
Definition removals (t : list Event) : list (str * bool) :=
  flat_map (fun e => match e with Remove p d => [(p, d)] | _ => [] end) t.

Definition prints (t : list Event) : list str :=
  flat_map (fun e => match e with Print l => [l] | _ => [] end) t.

(** A platform on which no call of the client raises. *)
Definition reliable {PS} (P : Platform PS) : Prop :=
  forall s : PS,
    (forall v, is_ok (fst (from_pretrained P v s)) = true)
    /\ (forall v t, is_ok (fst (predict P v t s)) = true)
    /\ (forall p d, is_ok (fst (write_file P p d s)) = true).

(** The provider raises [e] on the request for [text] in voice [voice]:
    when the model is loaded, or when it is asked for the audio. *)
Definition provider_raises {PS} (P : Platform PS) (voice text : str) (s : PS) (e : str)
  : Prop :=
  (exists s1, from_pretrained P voice s = (Raised e, s1))
  \/ (exists s1 s2, from_pretrained P voice s = (Ok tt, s1)
                    /\ predict P voice text s1 = (Raised e, s2)).

(** [t in s]. *)
Fixpoint contains (s t : str) : bool :=
  startswith s t || match s with [] => false | _ :: r => contains r t end.

Definition digit (n : nat) : char := (N.of_nat n + 0x30)%N.

Definition is_digit (c : char) : Prop := between 0x30%N 0x39%N c = true.

(** *** The cleaner as the specification words it *)

Fixpoint find_char (c : char) (s : str) : option nat :=
  match s with
  | [] => None
  | x :: r => if (x =? c)%N then Some 0 else option_map S (find_char c r)
  end.

(** Remove every span from an opening bracket to the nearest closing
    bracket after it; the spans are taken from the left and do not nest. *)
Fixpoint remove_spans_fuel (fuel : nat) (s : str) : str :=
  match fuel with
  | O => s
  | S fuel' =>
      match s with
      | [] => []
      | c :: r =>
          if (c =? LBRACKET)%N then
            match find_char RBRACKET r with
            | Some k => remove_spans_fuel fuel' (skipn (S k) r)
            | None => c :: remove_spans_fuel fuel' r
            end
          else c :: remove_spans_fuel fuel' r
      end
  end.

Definition remove_spans (s : str) : str := remove_spans_fuel (length s) s.

(** Collapse every run of whitespace into one space. *)
Fixpoint collapse_whitespace (s : str) : str :=
  match s with
  | [] => []
  | c :: r =>
      if is_space c then
        match r with
        | c' :: _ => if is_space c' then collapse_whitespace r
                     else SP :: collapse_whitespace r
        | [] => [SP]
        end
      else c :: collapse_whitespace r
  end.

(** Remove the spans, then collapse the whitespace, then trim. *)
Definition clean_spec (s : str) : str :=
  strip (collapse_whitespace (remove_spans s)).

(** No opening bracket of [s] has a closing bracket after it. *)
Fixpoint no_span (s : str) : Prop :=
  match s with
  | [] => True
  | c :: r => (c = LBRACKET -> ~ In RBRACKET r) /\ no_span r
  end.

(** *** Vocabulary of the further properties *)

(** The number that a string of decimal digits writes. *)
Definition nat_of_digits (s : str) : nat :=
  fold_left (fun acc c => 10 * acc + (N.to_nat c - 48)) s 0.

(** An entry of [error_summary] that begins with [Line k], the number
    ending there. *)
Definition tagged (k : nat) (entry : str) : Prop :=
  exists c rest, ~ is_digit c /\ entry = u "Line " ++ str_of_nat k ++ c :: rest.

(** Line number [k] of [lines] is not blank and leaves the entry [e]: the
    loop, started at index [i] in state [st] and world [w], has gone
    through the lines before it, and its body on that line adds [e] at
    the end of [error_summary]. *)
Definition line_leaves {PS} (P : Platform PS) (i : nat) (st : LoopState) (w : World PS)
    (lines : list str) (k : nat) (e : str) : Prop :=
  exists pre line post,
    lines = pre ++ line :: post
    /\ k = i + length pre + 1
    /\ nonblank line = true
    /\ error_summary
         (fst (loop_body P (i + length pre) line
                 (fst (for_lines P i pre st w)) (snd (for_lines P i pre st w))))
       = error_summary (fst (for_lines P i pre st w)) ++ [e].

(** Numbers that grow strictly, all above [lo]. *)
Fixpoint increasing (lo : nat) (ks : list nat) : Prop :=
  match ks with
  | [] => True
  | k :: r => lo < k /\ increasing k r
  end.

(** The requests of a trace to the provider, the models it loads, the
    paths it writes to (done or not) and its initialisations. *)
Definition predict_calls (t : list Event) : list (str * str) :=
  flat_map (fun e => match e with Predict v x => [(v, x)] | _ => [] end) t.

Definition model_loads (t : list Event) : list str :=
  flat_map (fun e => match e with FromPretrained v => [v] | _ => [] end) t.

Definition writes (t : list Event) : list str :=
  flat_map (fun e => match e with WriteFile p _ _ => [p] | _ => [] end) t.

Definition init_calls (t : list Event) : list (str * str) :=
  flat_map (fun e => match e with VertexInit p l => [(p, l)] | _ => [] end) t.

(** The calls of the client for one record, as far as they went: the
    model loaded, then the request, then the file written. *)
Definition client_calls (voice text path : str) (evs : list Event) : Prop :=
  evs = [FromPretrained voice]
  \/ evs = [FromPretrained voice; Predict voice text]
  \/ exists d ok, evs = [FromPretrained voice; Predict voice text; WriteFile path d ok].

(** A text made of lines that each end in [eol]. *)
Definition terminated (eol : str) (lines : list str) : str :=
  concat (map (fun l => l ++ eol) lines).

(** A line that parses, names a configured character and has text left
    to speak once cleaned. *)
Definition speakable (line : str) : bool :=
  match parse_line 0 line with
  | Dialogue r =>
      match dict_get CHARACTER_VOICES (character r) with
      | Some _ => truthy (cleaned_text r)
      | None => false
      end
  | _ => false
  end.

(** ** Python string primitives: facts *)

Unset Implicit Arguments.

Lemma truthy_false (s : str) : truthy s = false <-> s = [].
Proof. destruct s; simpl; split; congruence. Qed.

Lemma truthy_true (s : str) : truthy s = true <-> s <> [].
Proof. destruct s; simpl; split; congruence. Qed.

Lemma str_eqb_eq (a b : str) : str_eqb a b = true <-> a = b.
Proof.
  unfold str_eqb. destruct (list_eq_dec N.eq_dec a b); split; congruence.
Qed.

Lemma str_eqb_refl (a : str) : str_eqb a a = true.
Proof. now apply str_eqb_eq. Qed.

Lemma lstrip_incl (s : str) x : In x (lstrip s) -> In x s.
Proof.
  induction s as [|c r IH]; simpl; auto.
  destruct (is_space c); simpl; tauto.
Qed.

Lemma lstrip_app (a b : str) :
  lstrip (a ++ b) = if truthy (lstrip a) then lstrip a ++ b else lstrip b.
Proof.
  induction a as [|c r IH]; simpl; auto.
  destruct (is_space c); simpl; auto.
Qed.

(** [rstrip] by recursion on the string. *)
Lemma rstrip_cons (c : char) (r : str) :
  rstrip (c :: r) =
  if is_space c && negb (truthy (rstrip r)) then [] else c :: rstrip r.
Proof.
  unfold rstrip. simpl. rewrite lstrip_app.
  destruct (lstrip (rev r)) as [|x t] eqn:E; simpl.
  - rewrite andb_true_r. destruct (is_space c); reflexivity.
  - rewrite rev_app_distr. simpl.
    destruct (rev t ++ [x]) eqn:E'.
    + now destruct (rev t).
    + simpl. now rewrite andb_false_r.
Qed.

Lemma rstrip_nil : rstrip [] = [].
Proof. reflexivity. Qed.

Lemma rstrip_incl (s : str) x : In x (rstrip s) -> In x s.
Proof.
  unfold rstrip. rewrite <- in_rev. intros H%lstrip_incl. now apply in_rev.
Qed.

Lemma strip_incl (s : str) x : In x (strip s) -> In x s.
Proof. unfold strip. intros H%rstrip_incl. now apply lstrip_incl. Qed.

Lemma lstrip_idem (s : str) : lstrip (lstrip s) = lstrip s.
Proof.
  induction s as [|c r IH]; simpl; auto.
  destruct (is_space c) eqn:E; simpl; auto. now rewrite E.
Qed.

Lemma rstrip_truthy (s : str) : truthy (rstrip s) = negb (forallb is_space s).
Proof.
  induction s as [|c r IH]; auto.
  rewrite rstrip_cons, IH. simpl.
  destruct (is_space c), (forallb is_space r); reflexivity.
Qed.

Lemma rstrip_all_space (s : str) :
  forallb is_space (rstrip s) = forallb is_space s.
Proof.
  induction s as [|c r IH]; auto.
  rewrite rstrip_cons, rstrip_truthy. simpl.
  destruct (is_space c) eqn:E, (forallb is_space r) eqn:F; simpl;
    rewrite ?E, ?IH; auto.
Qed.

Lemma rstrip_idem (s : str) : rstrip (rstrip s) = rstrip s.
Proof.
  induction s as [|c r IH]; auto.
  rewrite rstrip_cons.
  destruct (is_space c && negb (truthy (rstrip r))) eqn:E; auto.
  rewrite rstrip_cons, IH, E. reflexivity.
Qed.

Lemma lstrip_rstrip (s : str) : lstrip (rstrip s) = rstrip (lstrip s).
Proof.
  induction s as [|c r IH]; auto.
  rewrite rstrip_cons. simpl. destruct (is_space c) eqn:E; simpl.
  - destruct (truthy (rstrip r)) eqn:T; simpl.
    + now rewrite E.
    + apply truthy_false in T. rewrite <- IH, T. reflexivity.
  - rewrite E, rstrip_cons, E. reflexivity.
Qed.

Lemma strip_idem (s : str) : strip (strip s) = strip s.
Proof.
  unfold strip. now rewrite lstrip_rstrip, rstrip_idem, lstrip_idem.
Qed.

(** *** Whitespace runs *)

Lemma is_space_SP : is_space SP = true.
Proof. reflexivity. Qed.

Lemma sub_spaces_from_incl b (s : str) x :
  In x (sub_spaces_from b s) -> x = SP \/ In x s.
Proof.
  revert b. induction s as [|c r IH]; simpl; intros b; auto.
  destruct (is_space c).
  - destruct b; simpl; intros H.
    + apply IH in H. tauto.
    + destruct H as [H|H]; auto. apply IH in H. tauto.
  - simpl. intros [H|H]; auto. apply IH in H. tauto.
Qed.

Lemma sub_spaces_from_truthy (s : str) :
  truthy (sub_spaces_from true s) = negb (forallb is_space s).
Proof.
  induction s as [|c r IH]; auto.
  simpl. destruct (is_space c); auto.
Qed.

Lemma lstrip_sub_spaces b (s : str) :
  lstrip (sub_spaces_from b s) = sub_spaces_from false (lstrip s).
Proof.
  revert b. induction s as [|c r IH]; intros b; auto.
  simpl. destruct (is_space c) eqn:E.
  - destruct b; simpl; apply IH.
  - simpl. now rewrite E.
Qed.

Lemma rstrip_sub_spaces b (s : str) :
  rstrip (sub_spaces_from b s) = sub_spaces_from b (rstrip s).
Proof.
  revert b. induction s as [|c r IH]; intros b; auto.
  rewrite rstrip_cons. simpl. destruct (is_space c) eqn:E; simpl.
  - rewrite rstrip_truthy, negb_involutive.
    destruct b.
    + rewrite IH. destruct (forallb is_space r) eqn:F; simpl.
      * assert (T : truthy (rstrip r) = false) by now rewrite rstrip_truthy, F.
        apply truthy_false in T. now rewrite T.
      * now rewrite E.
    + rewrite rstrip_cons, is_space_SP, IH, sub_spaces_from_truthy,
        rstrip_all_space, negb_involutive.
      destruct (forallb is_space r); simpl; auto. now rewrite E.
  - rewrite E, rstrip_cons, E. simpl. now rewrite IH.
Qed.

(** Trimming and collapsing commute. *)
Lemma strip_sub_spaces (s : str) : strip (sub_spaces s) = sub_spaces (strip s).
Proof.
  unfold strip, sub_spaces.
  now rewrite lstrip_sub_spaces, rstrip_sub_spaces.
Qed.

Lemma sub_spaces_from_idem (s : str) :
  (forall b, sub_spaces_from false (sub_spaces_from b s) = sub_spaces_from b s)
  /\ sub_spaces_from true (sub_spaces_from true s) = sub_spaces_from true s.
Proof.
  induction s as [|c r [IH1 IH2]]; simpl; auto.
  destruct (is_space c) eqn:E; simpl.
  - split; auto. intros [|]; auto.
    cbn [sub_spaces_from]. now rewrite is_space_SP, IH2.
  - rewrite E. split; intros; now rewrite IH1.
Qed.

Lemma sub_spaces_idem (s : str) : sub_spaces (sub_spaces s) = sub_spaces s.
Proof. apply sub_spaces_from_idem. Qed.

Lemma collapse_whitespace_cons (c : char) (r : str) :
  collapse_whitespace (c :: r) =
  if is_space c then
    match r with
    | c' :: _ => if is_space c' then collapse_whitespace r
                 else SP :: collapse_whitespace r
    | [] => [SP]
    end
  else c :: collapse_whitespace r.
Proof. reflexivity. Qed.

Lemma collapse_whitespace_head (c : char) (r : str) :
  is_space c = true -> exists t, collapse_whitespace (c :: r) = SP :: t.
Proof.
  revert c. induction r as [|c' r IH]; intros c E;
    rewrite collapse_whitespace_cons, E.
  - now exists [].
  - destruct (is_space c') eqn:E'.
    + apply (IH c' E').
    + now exists (collapse_whitespace (c' :: r)).
Qed.

(** The two ways of collapsing runs agree. *)
Lemma sub_spaces_from_collapse (s : str) :
  sub_spaces_from false s = collapse_whitespace s
  /\ sub_spaces_from true s =
     match s with
     | c :: _ => if is_space c then tl (collapse_whitespace s)
                 else collapse_whitespace s
     | [] => []
     end.
Proof.
  induction s as [|c r [IH1 IH2]]; auto.
  rewrite collapse_whitespace_cons. cbn [sub_spaces_from].
  destruct (is_space c) eqn:E.
  - assert (H : SP :: sub_spaces_from true r =
                match r with
                | c' :: _ => if is_space c' then collapse_whitespace r
                             else SP :: collapse_whitespace r
                | [] => [SP]
                end).
    { rewrite IH2. destruct r as [|c' r']; auto.
      destruct (is_space c') eqn:E'; auto.
      destruct (collapse_whitespace_head c' r' E') as [t Ht]. now rewrite Ht. }
    split; [exact H|].
    change (sub_spaces_from true r) with (tl (SP :: sub_spaces_from true r)) at 1.
    now f_equal.
  - now rewrite IH1.
Qed.

Lemma sub_spaces_collapse (s : str) : sub_spaces s = collapse_whitespace s.
Proof. apply sub_spaces_from_collapse. Qed.

(** *** Bracketed spans *)

Lemma match_to_close_find (s : str) :
  ~ In LF s -> match_to_close s = option_map S (find_char RBRACKET s).
Proof.
  induction s as [|c r IH]; simpl; intros H; auto.
  destruct (N.eqb_spec c RBRACKET); auto.
  destruct (N.eqb_spec c LF) as [->|_]; [tauto|].
  rewrite IH by tauto. now destruct (find_char RBRACKET r).
Qed.

Lemma find_char_none (c : char) (s : str) :
  find_char c s = None <-> ~ In c s.
Proof.
  induction s as [|x r IH]; simpl; [tauto|].
  destruct (N.eqb_spec x c) as [->|Hne].
  - split; [discriminate|tauto].
  - destruct (find_char c r) eqn:F; simpl.
    + split; [discriminate|]. intros H.
      assert (Hr : ~ In c r) by tauto. apply IH in Hr. discriminate.
    + split; auto. intros _ [H|H]; [congruence|].
      now apply (proj1 IH eq_refl).
Qed.

Lemma match_to_close_none (s : str) :
  ~ In RBRACKET s -> match_to_close s = None.
Proof.
  induction s as [|c r IH]; simpl; intros H; auto.
  destruct (N.eqb_spec c RBRACKET); [tauto|].
  destruct (c =? LF)%N; auto. rewrite IH; tauto.
Qed.

Lemma sub_brackets_from_skipn (k : nat) (s : str) :
  sub_brackets_from k s = sub_brackets_from 0 (skipn k s).
Proof.
  revert s. induction k as [|k IH]; intros [|c r]; auto. simpl. apply IH.
Qed.

Lemma sub_brackets_from_incl (k : nat) (s : str) x :
  In x (sub_brackets_from k s) -> In x s.
Proof.
  revert k. induction s as [|c r IH]; simpl; intros k; auto.
  destruct k as [|k].
  - destruct (c =? LBRACKET)%N.
    + destruct (match_to_close r); simpl; intros H.
      * right. now apply IH in H.
      * destruct H as [H|H]; auto. right. now apply IH in H.
    + simpl. intros [H|H]; auto. right. now apply IH in H.
  - intros H. right. now apply IH in H.
Qed.

Lemma skipn_incl {A} (k : nat) (s : list A) x : In x (skipn k s) -> In x s.
Proof.
  revert s. induction k as [|k IH]; intros [|c r]; simpl; auto.
Qed.

(** On a text without line feed, the substitution removes the spans the
    specification describes. *)
Lemma sub_brackets_remove_spans_fuel (fuel : nat) (s : str) :
  length s <= fuel -> ~ In LF s ->
  sub_brackets_from 0 s = remove_spans_fuel fuel s.
Proof.
  revert s. induction fuel as [|fuel IH]; intros [|c r]; simpl; auto.
  - lia.
  - intros Hlen Hlf.
    assert (Hr : ~ In LF r) by tauto.
    assert (Hl : length r <= fuel) by lia.
    destruct (c =? LBRACKET)%N.
    + rewrite (match_to_close_find r Hr).
      destruct (find_char RBRACKET r) as [k|]; simpl.
      * rewrite <- IH.
        -- destruct r as [|c' r']; [now destruct k|].
           apply (sub_brackets_from_skipn k r').
        -- destruct r as [|c' r']; simpl in *; [lia|].
           pose proof (length_skipn k r'). lia.
        -- intros H. apply Hr. now apply (skipn_incl (S k)).
      * now rewrite IH.
    + now rewrite IH.
Qed.

Lemma sub_brackets_remove_spans (s : str) :
  ~ In LF s -> sub_brackets s = remove_spans s.
Proof. intros H. now apply sub_brackets_remove_spans_fuel. Qed.

(** After the substitution no span is left, when no line feed hid one. *)
Lemma no_span_sub_brackets (k : nat) (s : str) :
  ~ In LF s -> no_span (sub_brackets_from k s).
Proof.
  revert k. induction s as [|c r IH]; simpl; intros k H; auto.
  assert (Hr : ~ In LF r) by tauto.
  destruct k as [|k]; auto.
  destruct (N.eqb_spec c LBRACKET) as [->|Hc].
  - rewrite (match_to_close_find r Hr).
    destruct (find_char RBRACKET r) eqn:F; simpl; auto.
    split; auto. intros _ Hin%sub_brackets_from_incl.
    now apply find_char_none in F.
  - simpl. split; auto; congruence.
Qed.

Lemma sub_brackets_no_span (s : str) : no_span s -> sub_brackets s = s.
Proof.
  unfold sub_brackets. induction s as [|c r IH]; simpl; auto.
  intros [H1 H2]. destruct (N.eqb_spec c LBRACKET) as [->|Hc].
  - rewrite match_to_close_none by auto. now rewrite IH.
  - now rewrite IH.
Qed.

Lemma no_span_lstrip (s : str) : no_span s -> no_span (lstrip s).
Proof.
  induction s as [|c r IH]; simpl; auto.
  destruct (is_space c); simpl; tauto.
Qed.

Lemma no_span_rstrip (s : str) : no_span s -> no_span (rstrip s).
Proof.
  induction s as [|c r IH]; auto.
  rewrite rstrip_cons. intros [H1 H2].
  destruct (is_space c && negb (truthy (rstrip r))); simpl; auto.
  split; auto. intros Hc Hin%rstrip_incl. now apply H1.
Qed.

Lemma no_span_sub_spaces b (s : str) : no_span s -> no_span (sub_spaces_from b s).
Proof.
  revert b. induction s as [|c r IH]; simpl; intros b; auto.
  intros [H1 H2].
  assert (Hin : forall b', In RBRACKET (sub_spaces_from b' r) -> In RBRACKET r).
  { intros b' [Hx|Hx]%sub_spaces_from_incl; [discriminate|auto]. }
  destruct (is_space c) eqn:E.
  - destruct b; simpl; auto. split; auto. discriminate.
  - simpl. split; auto. intros Hc Hx%Hin. now apply H1.
Qed.

(** *** Lines of a text *)

Lemma split1_parts (sep : char) (s : str) :
  (~ In sep s /\ split1 sep s = [s])
  \/ (exists a b, s = a ++ sep :: b /\ ~ In sep a /\ split1 sep s = [a; b]).
Proof.
  induction s as [|c r IH]; simpl.
  - left. tauto.
  - destruct (N.eqb_spec c sep) as [->|Hc].
    + right. exists [], r. simpl. tauto.
    + destruct IH as [[H1 H2]|(a & b & H1 & H2 & H3)].
      * left. rewrite H2. split; auto. intros [H|H]; auto.
      * right. exists (c :: a), b. rewrite H3, H1. simpl.
        repeat split; auto. intros [H|H]; auto.
Qed.

Lemma split1_unique (sep : char) (a b : str) :
  ~ In sep a -> split1 sep (a ++ sep :: b) = [a; b].
Proof.
  induction a as [|c r IH]; simpl; intros H.
  - now rewrite N.eqb_refl.
  - destruct (N.eqb_spec c sep) as [->|Hc]; [tauto|]. rewrite IH; tauto.
Qed.

Lemma split1_no_sep (sep : char) (s : str) :
  ~ In sep s -> split1 sep s = [s].
Proof.
  destruct (split1_parts sep s) as [[_ H]|(a & b & -> & _ & _)]; auto.
  intros H. exfalso. apply H, in_or_app. right. now left.
Qed.

Lemma split1_incl (sep : char) (s : str) (k : nat) x :
  In x (nth k (split1 sep s) []) -> In x s.
Proof.
  destruct (split1_parts sep s) as [[_ ->]|(a & b & -> & _ & ->)].
  - destruct k as [|[|k]]; simpl; tauto.
  - destruct k as [|[|[|k]]]; simpl; try tauto; intros H; apply in_or_app; auto.
    right. now right.
Qed.

Lemma splitlines_from_no_break b (cur s : str) (l : str) :
  In l (splitlines_from b cur s) ->
  (forall x, In x cur -> is_linebreak x = false) ->
  forall x, In x l -> is_linebreak x = false.
Proof.
  revert b cur. induction s as [|c r IH]; simpl; intros b cur Hl Hcur.
  - destruct cur as [|c0 cur']; simpl in Hl; [tauto|].
    destruct Hl as [<-|[]]. intros x Hx. apply Hcur, in_rev. exact Hx.
  - destruct (b && (c =? LF)%N).
    + eapply IH; eauto.
    + destruct (is_linebreak c) eqn:E.
      * destruct Hl as [<-|Hl].
        -- intros x Hx. apply Hcur, in_rev. exact Hx.
        -- eapply IH; eauto. simpl. tauto.
      * eapply IH; eauto. simpl. intros x [<-|Hx]; auto.
Qed.

(** No line of a text holds a line feed. *)
Lemma splitlines_no_LF (s l : str) : In l (splitlines s) -> ~ In LF l.
Proof.
  intros H Hin.
  assert (E : is_linebreak LF = false).
  { eapply splitlines_from_no_break; eauto. simpl. tauto. }
  discriminate.
Qed.

(** *** Numbers in file names *)

Lemma uint_digits (d : Decimal.uint) :
  Forall is_digit (u (DecimalString.NilEmpty.string_of_uint d)).
Proof.
  unfold u. induction d; simpl; constructor; auto; reflexivity.
Qed.

Lemma format_03d_head (k : nat) (rest : str) :
  startswith (format_03d k ++ rest) [SLASH] = false.
Proof.
  unfold format_03d, str_of_nat.
  pose proof (uint_digits (Nat.to_uint k)) as H.
  destruct (u (DecimalString.NilEmpty.string_of_uint (Nat.to_uint k))) as [|c t].
  - reflexivity.
  - inversion H as [|? ? Hc _]; subst.
    assert (E : (c =? SLASH)%N = false).
    { unfold is_digit, between in Hc. apply andb_prop in Hc as [Hc _].
      apply N.leb_le in Hc. apply N.eqb_neq. unfold SLASH. lia. }
    destruct (3 - length (c :: t)) as [|n]; simpl; [now rewrite E|reflexivity].
Qed.

Lemma format_03d_small (k : nat) :
  k < 1000 ->
  format_03d k = [digit (k / 100); digit (k / 10 mod 10); digit (k mod 10)].
Proof.
  intros H.
  assert (A : forallb (fun k => str_eqb (format_03d k)
                [digit (k / 100); digit (k / 10 mod 10); digit (k mod 10)])
              (seq 0 1000) = true) by (vm_compute; reflexivity).
  rewrite forallb_forall in A. apply str_eqb_eq, A, in_seq. lia.
Qed.

(** ** The cleaner *)

Lemma clean_spec_eq (s : str) : ~ In LF s -> clean s = clean_spec s.
Proof.
  intros H. unfold clean, clean_spec.
  now rewrite <- sub_brackets_remove_spans, <- sub_spaces_collapse, strip_sub_spaces.
Qed.

Lemma clean_no_span (s : str) : ~ In LF s -> no_span (clean s).
Proof.
  intros H. unfold clean, strip.
  apply no_span_sub_spaces, no_span_rstrip, no_span_lstrip.
  now apply no_span_sub_brackets.
Qed.

Lemma clean_fixed (s : str) : no_span (clean s) -> clean (clean s) = clean s.
Proof.
  intros H. unfold clean at 1. rewrite (sub_brackets_no_span _ H).
  unfold clean. now rewrite strip_sub_spaces, strip_idem, sub_spaces_idem.
Qed.

(** ** The program: facts *)

Lemma registry_voice_truthy (k v : str) :
  dict_get CHARACTER_VOICES k = Some v -> truthy v = true.
Proof.
  unfold CHARACTER_VOICES. simpl.
  repeat match goal with
         | |- context [str_eqb k ?x] => destruct (str_eqb k x)
         end; intros H; inversion H; reflexivity.
Qed.

Lemma dict_get_none (d : list (str * str)) (k : str) :
  dict_get d k = None <-> ~ In k (map fst d).
Proof.
  induction d as [|[k' v] d IH]; simpl; [tauto|].
  destruct (str_eqb k k') eqn:E.
  - apply str_eqb_eq in E. subst. split; [discriminate|tauto].
  - rewrite IH. split; [|tauto]. intros H [H'|H']; auto.
    subst. now rewrite str_eqb_refl in E.
Qed.

Section ProgramFacts.

Context {PS : Type} (P : Platform PS).

(** The loop body is the parser followed by the processing of the record. *)
Lemma loop_body_parse (i : nat) (line : str) (st : LoopState) (w : World PS) :
  loop_body P i line st w =
  match parse_line i line with
  | Blank => (st, w)
  | FormatError entry => (add_error (count_line st) entry, w)
  | Dialogue r => process_record P r (count_line st) w
  end.
Proof.
  unfold loop_body, parse_line.
  destruct (negb (truthy (strip line))); auto.
  destruct (malformed (split1 COLON (strip line))); auto.
Qed.

Lemma generate_audio_for_line_empty (n v f : str) (w : World PS) :
  generate_audio_for_line P n v [] f w = ((false, no_text_message), w).
Proof. reflexivity. Qed.

Lemma for_lines_app (i : nat) (a b : list str) (st : LoopState) (w : World PS) :
  for_lines P i (a ++ b) st w =
  let (st1, w1) := for_lines P i a st w in
  for_lines P (i + length a) b st1 w1.
Proof.
  revert i st w. induction a as [|l a IH]; intros i st w; simpl.
  - unfold ret. now rewrite Nat.add_0_r.
  - unfold bind. destruct (loop_body P i l st w) as [st1 w1].
    rewrite IH. now rewrite Nat.add_succ_r.
Qed.

Lemma for_lines_cons (i : nat) (l : str) (rest : list str) (st : LoopState) (w : World PS) :
  for_lines P i (l :: rest) st w =
  for_lines P (S i) rest (fst (loop_body P i l st w)) (snd (loop_body P i l st w)).
Proof.
  simpl. unfold bind. now destruct (loop_body P i l st w).
Qed.

(** What the processing of one record does: it extends the trace by calls
    of the client, writes under the name of the record only, and either
    adds one error entry and no artifact, or one artifact and no entry. *)
Lemma process_record_cases (r : DialogueRecord) (st : LoopState) (w : World PS) :
  exists st' w' evs,
    process_record P r st w = (st', w')
    /\ trace w' = trace w ++ evs
    /\ per_line_calls evs = evs
    /\ (forall p d ok, In (WriteFile p d ok) evs ->
          p = artifact_path P (line_processed_count st) (character r))
    /\ ((exists e, st' = add_error st e /\ artifacts evs = [])
        \/ (st' = add_audio st (html_entry (character r) (original_text r)
                                 (artifact_path P (line_processed_count st) (character r)))
            /\ artifacts evs = [artifact_path P (line_processed_count st) (character r)])).
Proof.
  unfold process_record.
  destruct (dict_get CHARACTER_VOICES (character r)) as [v|].
  2:{ eexists _, w, []. rewrite app_nil_r. repeat split; eauto.
      intros ? ? ? []. }
  destruct (negb (truthy v)).
  { eexists _, w, []. rewrite app_nil_r. repeat split; eauto.
    intros ? ? ? []. }
  unfold generate_audio_for_line, bind, ret, call.
  destruct (negb (truthy (cleaned_text r))).
  { eexists _, w, []. rewrite app_nil_r. repeat split; eauto.
    intros ? ? ? []. }
  destruct (from_pretrained P v (ext w)) as [[[]|e1] s1]; simpl.
  2:{ eexists _, _, [_]. repeat split; eauto.
      intros ? ? ? [H|[]]; discriminate. }
  destruct (predict P v (cleaned_text r) s1) as [[audio|e2] s2]; simpl.
  2:{ eexists _, _, [_; _]. rewrite <- app_assoc. repeat split; eauto.
      intros ? ? ? [H|[H|[]]]; discriminate. }
  destruct (write_file P _ audio s2) as [[[]|e3] s3]; simpl.
  - eexists _, _, [_; _; _]. rewrite <- !app_assoc. repeat split; eauto.
    intros ? ? ? [H|[H|[H|[]]]]; try discriminate. now inversion H.
  - eexists _, _, [_; _; _]. rewrite <- !app_assoc. repeat split; eauto.
    intros ? ? ? [H|[H|[H|[]]]]; try discriminate. now inversion H.
Qed.

Lemma parse_line_blank (i : nat) (line : str) :
  nonblank line = false -> parse_line i line = Blank.
Proof. unfold nonblank, parse_line. now intros ->. Qed.

Lemma parse_line_nonblank (i : nat) (line : str) :
  nonblank line = true ->
  parse_line i line = FormatError (format_error_entry (i + 1) (strip line))
  \/ exists r, parse_line i line = Dialogue r.
Proof.
  unfold nonblank, parse_line. intros ->. simpl.
  destruct (malformed _); eauto.
Qed.

Lemma parse_line_dialogue (i : nat) (line : str) (r : DialogueRecord) :
  parse_line i line = Dialogue r ->
  nonblank line = true
  /\ line_number r = i + 1
  /\ character r = strip (nth 0 (split1 COLON (strip line)) [])
  /\ original_text r = strip (nth 1 (split1 COLON (strip line)) [])
  /\ cleaned_text r = clean (original_text r)
  /\ malformed (split1 COLON (strip line)) = false.
Proof.
  unfold nonblank, parse_line.
  destruct (truthy (strip line)); simpl; [|discriminate].
  destruct (malformed _); [discriminate|].
  intros H. inversion H. simpl. tauto.
Qed.

(** One turn of the loop: a blank line changes nothing; any other line is
    counted, and leaves one error entry or one artifact. *)
Lemma loop_body_cases (i : nat) (line : str) (st : LoopState) (w : World PS) :
  exists st' w' evs,
    loop_body P i line st w = (st', w')
    /\ trace w' = trace w ++ evs
    /\ per_line_calls evs = evs
    /\ ((nonblank line = false /\ st' = st /\ evs = [])
        \/ (nonblank line = true
            /\ (forall p d ok, In (WriteFile p d ok) evs ->
                  exists r, parse_line i line = Dialogue r
                            /\ p = artifact_path P (line_processed_count st + 1) (character r))
            /\ ((exists e, st' = add_error (count_line st) e /\ artifacts evs = [])
                \/ (exists r, parse_line i line = Dialogue r
                      /\ st' = add_audio (count_line st)
                                 (html_entry (character r) (original_text r)
                                    (artifact_path P (line_processed_count st + 1) (character r)))
                      /\ artifacts evs =
                         [artifact_path P (line_processed_count st + 1) (character r)])))).
Proof.
  rewrite loop_body_parse.
  destruct (nonblank line) eqn:B.
  2:{ rewrite (parse_line_blank i line B). exists st, w, [].
      rewrite app_nil_r. repeat split; auto. }
  destruct (parse_line_nonblank i line B) as [E|[r E]]; rewrite E.
  - eexists _, w, []. rewrite app_nil_r. repeat split; auto.
    right. repeat split; eauto. intros ? ? ? [].
  - destruct (process_record_cases r (count_line st) w)
      as (st' & w' & evs & H1 & H2 & H3 & H4 & H5).
    exists st', w', evs. repeat split; auto.
    right. repeat split; eauto.
    destruct H5 as [H5|[H5 H6]]; eauto.
Qed.

Lemma loop_body_count (i : nat) (line : str) (st : LoopState) (w : World PS) :
  line_processed_count (fst (loop_body P i line st w)) =
  line_processed_count st + (if nonblank line then 1 else 0).
Proof.
  destruct (loop_body_cases i line st w)
    as (st' & w' & evs & -> & _ & _ & [(-> & -> & _)|(-> & _ & H)]); simpl.
  - lia.
  - destruct H as [(e & -> & _)|(r & _ & -> & _)]; reflexivity.
Qed.

Lemma for_lines_count (i : nat) (lines : list str) (st : LoopState) (w : World PS) :
  line_processed_count (fst (for_lines P i lines st w)) =
  line_processed_count st + count_nonblank lines.
Proof.
  revert i st w. induction lines as [|l rest IH]; intros i st w.
  - simpl. unfold count_nonblank. simpl. lia.
  - rewrite for_lines_cons, IH, loop_body_count.
    unfold count_nonblank. simpl. destruct (nonblank l); simpl; lia.
Qed.



Lemma artifacts_app (a b : list Event) : artifacts (a ++ b) = artifacts a ++ artifacts b.
Proof. apply flat_map_app. Qed.

Lemma per_line_calls_app (a b : list Event) :
  per_line_calls (a ++ b) = per_line_calls a ++ per_line_calls b.
Proof. apply filter_app. Qed.

(** The trace only grows, and the artifacts of a run are as many as the
    lines it counted as generated. *)
Lemma for_lines_trace (i : nat) (lines : list str) (st : LoopState) (w : World PS) :
  exists evs,
    trace (snd (for_lines P i lines st w)) = trace w ++ evs
    /\ per_line_calls evs = evs
    /\ audio_files_generated_count (fst (for_lines P i lines st w)) =
       audio_files_generated_count st + length (artifacts evs).
Proof.
  revert i st w. induction lines as [|l rest IH]; intros i st w.
  - exists []. simpl. rewrite app_nil_r. auto.
  - rewrite for_lines_cons.
    destruct (loop_body_cases i l st w)
      as (st' & w' & evs & -> & H1 & H2 & H3). simpl.
    destruct (IH (S i) st' w') as (evs' & H4 & H5 & H6).
    exists (evs ++ evs'). rewrite H4, H1, app_assoc, H6.
    rewrite per_line_calls_app, H2, H5, artifacts_app, length_app.
    repeat split; auto.
    destruct H3 as [(_ & -> & ->)|(_ & _ & [(e & -> & ->)|(r & _ & -> & ->)])];
      simpl; lia.
Qed.

Lemma artifact_path_eq (k : nat) (character_name : str) :
  artifact_path P k character_name =
  OUTPUT_DIR P ++ u "/" ++ format_03d k ++ u "_" ++ character_name ++ u ".mp3".
Proof.
  unfold artifact_path, path_join. rewrite format_03d_head.
  unfold OUTPUT_DIR. now destruct (opt_truthy _).
Qed.

Lemma artifacts_in (evs : list Event) (p : str) :
  In p (artifacts evs) -> exists d, In (WriteFile p d true) evs.
Proof.
  unfold artifacts. rewrite in_flat_map. intros (e & He & Hp).
  destruct e as [| | | |p' d [|]|]; simpl in Hp; try tauto.
  destruct Hp as [<-|[]]. now exists d.
Qed.

Lemma parse_line_no_colon (i : nat) (line : str) :
  nonblank line = true -> ~ In COLON line ->
  parse_line i line = FormatError (format_error_entry (i + 1) (strip line)).
Proof.
  unfold nonblank, parse_line. intros -> H. simpl.
  rewrite split1_no_sep; [reflexivity|].
  intros Hin. now apply H, strip_incl.
Qed.

(** On a platform where no call raises, a configured record with text to
    speak gives its artifact. *)
Lemma process_record_reliable (r : DialogueRecord) (st : LoopState) (w : World PS) (v : str) :
  reliable P -> dict_get CHARACTER_VOICES (character r) = Some v ->
  cleaned_text r <> [] ->
  exists w' evs,
    process_record P r st w =
      (add_audio st (html_entry (character r) (original_text r)
                       (artifact_path P (line_processed_count st) (character r))), w')
    /\ trace w' = trace w ++ evs
    /\ artifacts evs = [artifact_path P (line_processed_count st) (character r)].
Proof.
  intros R Hv Ht. unfold process_record. rewrite Hv.
  rewrite (registry_voice_truthy _ _ Hv). simpl.
  unfold generate_audio_for_line, bind, ret, call.
  apply truthy_true in Ht. rewrite Ht. simpl.
  destruct (R (ext w)) as (R1 & _ & _). specialize (R1 v).
  destruct (from_pretrained P v (ext w)) as [[[]|e1] s1]; [|discriminate]. simpl.
  destruct (R s1) as (_ & R2 & _). specialize (R2 v (cleaned_text r)).
  destruct (predict P v (cleaned_text r) s1) as [[audio|e2] s2]; [|discriminate].
  simpl. destruct (R s2) as (_ & _ & R3).
  specialize (R3 (artifact_path P (line_processed_count st) (character r)) audio).
  destruct (write_file P _ audio s2) as [[[]|e3] s3]; [|discriminate]. simpl.
  eexists _, [_; _; _]. rewrite <- !app_assoc. repeat split.
Qed.

Lemma count_nonblank_app (a b : list str) :
  count_nonblank (a ++ b) = count_nonblank a + count_nonblank b.
Proof. unfold count_nonblank. now rewrite filter_app, length_app. Qed.

(** What the processing of a record does when no voice is configured. *)
Lemma process_record_unconfigured (r : DialogueRecord) (st : LoopState) (w : World PS) :
  dict_get CHARACTER_VOICES (character r) = None ->
  process_record P r st w =
  (add_error st (not_configured_entry (line_number r) (character r)), w).
Proof. unfold process_record. now intros ->. Qed.

(** ... and when nothing is left to speak. *)
Lemma process_record_no_text (r : DialogueRecord) (st : LoopState) (w : World PS) (v : str) :
  dict_get CHARACTER_VOICES (character r) = Some v -> cleaned_text r = [] ->
  process_record P r st w =
  (add_error st (line_error_entry (line_number r) (character r) no_text_message), w).
Proof.
  unfold process_record. intros Hv ->. rewrite Hv.
  now rewrite (registry_voice_truthy _ _ Hv).
Qed.

(** ... and when the provider raises. *)
Lemma process_record_provider_raises
    (r : DialogueRecord) (st : LoopState) (w : World PS) (v e : str) :
  dict_get CHARACTER_VOICES (character r) = Some v -> cleaned_text r <> [] ->
  provider_raises P v (cleaned_text r) (ext w) e ->
  exists w' evs,
    process_record P r st w =
      (add_error st (line_error_entry (line_number r) (character r)
                       (api_error_message (character r) e)), w')
    /\ trace w' = trace w ++ evs
    /\ artifacts evs = [].
Proof.
  intros Hv Ht Hr. unfold process_record. rewrite Hv.
  rewrite (registry_voice_truthy _ _ Hv). simpl.
  unfold generate_audio_for_line, bind, ret, call.
  apply truthy_true in Ht. rewrite Ht. simpl.
  destruct Hr as [(s1 & E1)|(s1 & s2 & E1 & E2)]; rewrite E1; simpl.
  - eexists _, [_]. repeat split.
  - rewrite E2. simpl. eexists _, [_; _]. rewrite <- app_assoc. repeat split.
Qed.

Lemma startswith_app (t b : str) : startswith (t ++ b) t = true.
Proof.
  induction t as [|c t IH]; [now destruct b|].
  cbn [startswith app]. now rewrite N.eqb_refl, IH.
Qed.

Lemma contains_here (t b : str) : contains (t ++ b) t = true.
Proof.
  assert (U : forall s, contains s t =
                startswith s t || match s with [] => false | _ :: r => contains r t end)
    by (intros []; reflexivity).
  now rewrite U, startswith_app.
Qed.

Lemma contains_later (a s t : str) : contains s t = true -> contains (a ++ s) t = true.
Proof.
  induction a as [|c a IH]; simpl; auto.
  intros H. rewrite (IH H). apply orb_true_r.
Qed.

(** *** Telling the error entries apart *)

Lemma digits_then (D D' : str) (x y : char) (X Y : str) :
  Forall is_digit D -> Forall is_digit D' ->
  ~ is_digit x -> ~ is_digit y ->
  D ++ x :: X = D' ++ y :: Y -> D = D' /\ x = y /\ X = Y.
Proof.
  intros HD. revert D'. induction HD as [|c D Hc HD IH]; intros D' HD' Hx Hy E.
  - destruct HD' as [|c' D' Hc' _]; simpl in E.
    + now inversion E.
    + inversion E; subst. contradiction.
  - destruct HD' as [|c' D' Hc' HD']; simpl in E.
    + inversion E; subst. contradiction.
    + inversion E; subst.
      destruct (IH D' HD' Hx Hy H1) as (-> & -> & ->). auto.
Qed.

Lemma str_of_nat_digits (n : nat) : Forall is_digit (str_of_nat n).
Proof. apply uint_digits. Qed.

Lemma not_configured_not_format (n n' : nat) (character_name line : str) :
  not_configured_entry n character_name <> format_error_entry n' line.
Proof.
  unfold not_configured_entry, format_error_entry. intros E.
  apply app_inv_head in E.
  apply (digits_then _ _ COLON SP) in E as (_ & E & _);
    auto using str_of_nat_digits; discriminate.
Qed.

Lemma line_error_not_format (n n' : nat) (character_name message line : str) :
  In character_name (map fst CHARACTER_VOICES) ->
  line_error_entry n character_name message <> format_error_entry n' line.
Proof.
  unfold line_error_entry, format_error_entry. intros K E.
  apply app_inv_head in E.
  apply (digits_then _ _ SP SP) in E as (_ & _ & E);
    auto using str_of_nat_digits; try discriminate.
  simpl in K.
  repeat (destruct K as [<-|K]; [discriminate E|]). exact K.
Qed.

Lemma dict_get_some_key (d : list (str * str)) (k v : str) :
  dict_get d k = Some v -> In k (map fst d).
Proof.
  intros H. destruct (in_dec (list_eq_dec N.eq_dec) k (map fst d)) as [|N]; auto.
  apply dict_get_none in N. congruence.
Qed.

(** The processing of a record never leaves a Format Error entry. *)
Lemma process_record_no_format_error (r : DialogueRecord) (st : LoopState) (w : World PS) :
  let st' := fst (process_record P r st w) in
  error_summary st' = error_summary st
  \/ exists e, error_summary st' = error_summary st ++ [e]
               /\ forall n line, e <> format_error_entry n line.
Proof.
  cbv zeta. unfold process_record.
  destruct (dict_get CHARACTER_VOICES (character r)) as [v|] eqn:Hv.
  2:{ right. eexists. split; [reflexivity|]. intros. apply not_configured_not_format. }
  destruct (negb (truthy v)).
  { right. eexists. split; [reflexivity|]. intros. apply not_configured_not_format. }
  apply dict_get_some_key in Hv.
  unfold bind, ret.
  destruct (generate_audio_for_line P _ _ _ _ w) as [[[|] msg] w']; cbn [fst].
  - now left.
  - right. eexists. split; [reflexivity|]. intros. now apply line_error_not_format.
Qed.

Lemma malformed_no_colon (line : str) :
  ~ In COLON line -> malformed (split1 COLON line) = true.
Proof. intros H. now rewrite split1_no_sep. Qed.

Lemma malformed_split (a b : str) :
  ~ In COLON a ->
  malformed (split1 COLON (a ++ COLON :: b))
  = negb (truthy (strip a)) || negb (truthy (strip b)).
Proof. intros H. now rewrite split1_unique. Qed.

Lemma removals_app (a b : list Event) : removals (a ++ b) = removals a ++ removals b.
Proof. apply flat_map_app. Qed.

Lemma prints_app (a b : list Event) : prints (a ++ b) = prints a ++ prints b.
Proof. apply flat_map_app. Qed.

(** The sweep of [clear_generated_files]: one attempt per name, in order;
    the count grows by the deletions done; each failure is printed. *)
Lemma remove_all_sweep (filenames : list str) (deleted_count : nat) (w : World PS) :
  exists w' evs,
    remove_all P filenames deleted_count w
    = (deleted_count + length (filter snd (removals evs)), w')
    /\ trace w' = trace w ++ evs
    /\ map fst (removals evs) = map (path_join (OUTPUT_DIR P)) filenames
    /\ length (prints evs)
       = length (filter (fun x => negb (snd x)) (removals evs)).
Proof.
  revert deleted_count w.
  induction filenames as [|f rest IH]; intros k w.
  - exists w, []. simpl. unfold ret. rewrite app_nil_r, Nat.add_0_r. auto.
  - simpl. unfold bind, call, print.
    destruct (remove P (path_join (OUTPUT_DIR P) f) (ext w)) as [[[]|e] s1]; simpl.
    + match goal with
      | |- context [remove_all P rest ?k' ?w1] =>
          destruct (IH k' w1) as (w' & evs & E & T & R & L)
      end.
      rewrite E. exists w', (Remove (path_join (OUTPUT_DIR P) f) true :: evs).
      simpl in T. rewrite T, <- app_assoc.
      simpl. rewrite R, L. repeat split; auto. f_equal. lia.
    + match goal with
      | |- context [remove_all P rest ?k' ?w1] =>
          destruct (IH k' w1) as (w' & evs & E & T & R & L)
      end.
      rewrite E.
      exists w', (Remove (path_join (OUTPUT_DIR P) f) false
                  :: Print (u "Error deleting file " ++ f ++ u ": " ++ e) :: evs).
      simpl in T.
      rewrite T, <- !app_assoc. simpl. rewrite R, L. repeat split; auto.
Qed.

(** The initialisation calls nothing of the client, and what it raises is
    a message. *)
Lemma initialize_vertex_ai_calls (w : World PS) :
  exists evs,
    trace (snd (initialize_vertex_ai P w)) = trace w ++ evs
    /\ per_line_calls evs = [] /\ artifacts evs = []
    /\ forall e, fst (initialize_vertex_ai P w) = Raised e -> truthy e = true.
Proof.
  unfold initialize_vertex_ai.
  destruct (environ_get P (u "GCP_PROJECT_ID")) as [pid|].
  2:{ exists []. cbn [fst snd ret]. rewrite app_nil_r. repeat split.
      intros e He. injection He as <-. reflexivity. }
  destruct (truthy pid).
  2:{ exists []. cbn [fst snd ret]. rewrite app_nil_r. repeat split.
      intros e He. injection He as <-. reflexivity. }
  unfold bind, call, print, ret. cbn [ext trace].
  destruct (vertexai_init P pid _ (ext w)) as [[[]|e0] s1]; cbn [fst snd trace].
  - eexists [_; _; _]. rewrite <- !app_assoc. repeat split. discriminate.
  - eexists [_; _]. rewrite <- !app_assoc. repeat split.
    intros e He. injection He as <-. reflexivity.
Qed.

(** Past its three checks, [generate_voice_over] reports the state the
    loop ends in. *)
Lemma generate_voice_over_batch (f : ScriptFile) (content : str) (w : World PS) :
  endswith (str_lower P (name f)) (u ".txt") = true ->
  fst (initialize_vertex_ai P w) = Ok tt ->
  read_decoded f = Ok content ->
  generate_voice_over P (Some f) w =
  (report (fst (after P (splitlines content) (snd (initialize_vertex_ai P w)))),
   snd (after P (splitlines content) (snd (initialize_vertex_ai P w)))).
Proof.
  intros H I R. unfold generate_voice_over, bind, ret. rewrite H, R.
  cbn [negb]. cbv beta iota.
  destruct (initialize_vertex_ai P w) as [[[]|e] w1]; [|discriminate].
  cbn [fst snd]. unfold after.
  now destruct (for_lines P 0 (splitlines content) initial_state w1).
Qed.

End ProgramFacts.

(** ** The Dialogue Cleaner *)

Lemma parse_line_no_LF (content : str) (i : nat) (line : str) (r : DialogueRecord) :
  In line (splitlines content) -> parse_line i line = Dialogue r ->
  ~ In LF (original_text r).
Proof.
  intros Hl Hp Hin. apply parse_line_dialogue in Hp as (_ & _ & _ & E & _).
  rewrite E in Hin. apply strip_incl, split1_incl, strip_incl in Hin.
  now apply (splitlines_no_LF content line).
Qed.

(** C3.  The cleaned text of every Dialogue Record is what the reference
    definition gives on its original text: the spans from an opening
    bracket to the nearest closing bracket removed, every run of
    whitespace collapsed into one space, the result trimmed.  The same
    holds of any text without a line feed, and
    [clean("Hi [whisper] there [pause] friend")] is ["Hi there friend"]. *)
Theorem cleaning_follows_reference :
  (forall content i line r,
      In line (splitlines content) -> parse_line i line = Dialogue r ->
      cleaned_text r = clean_spec (original_text r))
  /\ (forall s, ~ In LF s -> clean s = clean_spec s)
  /\ clean (u "Hi [whisper] there [pause] friend") = u "Hi there friend".
Proof.
  split; [|split].
  - intros content i line r Hl Hp.
    pose proof (parse_line_no_LF content i line r Hl Hp) as H.
    apply parse_line_dialogue in Hp as (_ & _ & _ & _ & E & _).
    rewrite E. now apply clean_spec_eq.
  - apply clean_spec_eq.
  - reflexivity.
Qed.

Lemma cleaning_follows_reference_witness :
  In (u "Radha: Wait  [pause] for [softly] me") (splitlines (u "Radha: Wait  [pause] for [softly] me"))
  /\ clean_spec (u "Wait  [pause] for [softly] me") = u "Wait for me".
Proof.
  assert (Hin : In (u "Radha: Wait  [pause] for [softly] me")
                   (splitlines (u "Radha: Wait  [pause] for [softly] me")))
    by (vm_compute; left; reflexivity).
  split; [exact Hin|].
  exact (eq_sym (proj1 cleaning_follows_reference
                   (u "Radha: Wait  [pause] for [softly] me") 0
                   (u "Radha: Wait  [pause] for [softly] me")
                   {| line_number := 1; character := u "Radha";
                      original_text := u "Wait  [pause] for [softly] me";
                      cleaned_text := u "Wait for me" |}
                   Hin eq_refl)).
Defined.

(** C4.  Cleaning is idempotent: on every dialogue text that a line of a
    script gives, and more generally on every string without a line feed,
    cleaning the cleaned text gives the cleaned text again; so the
    cleaned text of a Dialogue Record is left as it is by a further
    cleaning. *)
Theorem clean_idempotent :
  (forall content i line r,
      In line (splitlines content) -> parse_line i line = Dialogue r ->
      clean (clean (original_text r)) = clean (original_text r)
      /\ clean (cleaned_text r) = cleaned_text r)
  /\ (forall s, ~ In LF s -> clean (clean s) = clean s).
Proof.
  assert (I : forall s, ~ In LF s -> clean (clean s) = clean s).
  { intros s H. now apply clean_fixed, clean_no_span. }
  split; [|exact I].
  intros content i line r Hl Hp.
  pose proof (parse_line_no_LF content i line r Hl Hp) as H.
  apply parse_line_dialogue in Hp as (_ & _ & _ & _ & E & _).
  rewrite E. split; now apply I.
Qed.

Lemma clean_idempotent_witness :
  In (u "Radha: Hi [whisper] there  [pause] friend ]")
     (splitlines (u "Krishna: hello
Radha: Hi [whisper] there  [pause] friend ]"))
  /\ ~ In LF (u "Hi [whisper] there  [pause] friend ]")
  /\ clean (clean (u "Hi [whisper] there  [pause] friend ]"))
     = clean (u "Hi [whisper] there  [pause] friend ]")
  /\ clean (u "Hi there friend ]") = u "Hi there friend ]".
Proof.
  assert (Hl : In (u "Radha: Hi [whisper] there  [pause] friend ]")
                  (splitlines (u "Krishna: hello
Radha: Hi [whisper] there  [pause] friend ]")))
    by (vm_compute; right; left; reflexivity).
  assert (H : ~ In LF (u "Hi [whisper] there  [pause] friend ]")).
  { vm_compute. intuition discriminate. }
  split; [exact Hl|]. split; [exact H|].
  split; [exact (proj2 clean_idempotent _ H)|].
  exact (proj2 (proj1 clean_idempotent _ 1 _
                  {| line_number := 2; character := u "Radha";
                     original_text := u "Hi [whisper] there  [pause] friend ]";
                     cleaned_text := u "Hi there friend ]" |}
                  Hl eq_refl)).
Defined.

(** Outside the texts of a script the absence of a line feed matters: [.]
    does not cross one, so on a bracket pair with a line feed inside a
    first cleaning keeps the brackets and turns the line feed into a
    space, and a second cleaning removes the span.  No line that
    [splitlines] gives holds a line feed ([parse_line_no_LF]). *)
Lemma clean_twice_differs_across_line_feed :
  clean [LBRACKET; LF; RBRACKET] = u "[ ]"
  /\ clean (clean [LBRACKET; LF; RBRACKET]) = []
  /\ clean (clean [LBRACKET; LF; RBRACKET]) <> clean [LBRACKET; LF; RBRACKET].
Proof. repeat split. discriminate. Qed.

(** ** The batch *)

(** C1.  After the loop the processed-line count is the number of
    non-blank lines of the script, and it is that state the batch reports
    once the file is accepted, the provider initialised and the script
    read.  Each artifact written for a line is
    named, inside the output directory, by the count of non-blank lines up
    to and including that line in the format [03d], an underscore, the
    character name and [.mp3]; below 1000 the format gives exactly three
    digits.  On a script of three lines, the first and third of which
    parse, are configured, have text to speak and are synthesised, and the
    second of which is not blank and has no colon: three lines are
    processed, two artifacts generated, named [001_] and [003_], and the
    only error entry is the Format Error of line 2. *)
Theorem processed_count_and_artifact_names {PS} (P : Platform PS)
    (content : str) (w : World PS) :
  line_processed_count (fst (after P (splitlines content) w))
  = count_nonblank (splitlines content)
  /\ (forall f w0,
        endswith (str_lower P (name f)) (u ".txt") = true ->
        fst (initialize_vertex_ai P w0) = Ok tt ->
        read_decoded f = Ok content ->
        w = snd (initialize_vertex_ai P w0) ->
        generate_voice_over P (Some f) w0
        = (report (fst (after P (splitlines content) w)),
           snd (after P (splitlines content) w)))
  /\ (forall pre line post,
        splitlines content = pre ++ line :: post ->
        let s1 := after P pre w in
        let s2 := loop_body P (length pre) line (fst s1) (snd s1) in
        after P (splitlines content) w
        = for_lines P (S (length pre)) post (fst s2) (snd s2)
        /\ exists evs,
            trace (snd s2) = trace (snd s1) ++ evs
            /\ forall path, In path (artifacts evs) ->
                 exists r, parse_line (length pre) line = Dialogue r
                   /\ path = OUTPUT_DIR P ++ u "/"
                             ++ format_03d (count_nonblank (pre ++ [line]))
                             ++ u "_" ++ character r ++ u ".mp3")
  /\ (forall k, k < 1000 ->
        format_03d k = [digit (k / 100); digit (k / 10 mod 10); digit (k mod 10)])
  /\ (forall l1 l2 l3 r1 r3 v1 v3,
        splitlines content = [l1; l2; l3] ->
        parse_line 0 l1 = Dialogue r1 ->
        dict_get CHARACTER_VOICES (character r1) = Some v1 ->
        cleaned_text r1 <> [] ->
        nonblank l2 = true -> ~ In COLON l2 ->
        parse_line 2 l3 = Dialogue r3 ->
        dict_get CHARACTER_VOICES (character r3) = Some v3 ->
        cleaned_text r3 <> [] ->
        reliable P ->
        let s := after P (splitlines content) w in
        line_processed_count (fst s) = 3
        /\ audio_files_generated_count (fst s) = 2
        /\ error_summary (fst s) = [u "Line 2 (Format Error): '" ++ strip l2 ++ u "'"]
        /\ exists evs,
            trace (snd s) = trace w ++ evs
            /\ artifacts evs =
               [OUTPUT_DIR P ++ u "/001_" ++ character r1 ++ u ".mp3";
                OUTPUT_DIR P ++ u "/003_" ++ character r3 ++ u ".mp3"]).
Proof.
  split; [|split; [|split; [|split]]].
  - unfold after. now rewrite for_lines_count.
  - intros f w0 H I R ->. now apply generate_voice_over_batch.
  - intros pre line post Hs. cbv zeta. split.
    + unfold after. rewrite Hs, for_lines_app.
      destruct (for_lines P 0 pre initial_state w) as [st1 w1].
      now rewrite for_lines_cons.
    + destruct (loop_body_cases P (length pre) line (fst (after P pre w))
                  (snd (after P pre w)))
        as (st' & w' & evs & E & H1 & _ & H3).
      rewrite E. exists evs. split; auto.
      intros path [d Hd]%artifacts_in.
      destruct H3 as [(_ & _ & ->)|(B & Hw & _)]; [destruct Hd|].
      destruct (Hw _ _ _ Hd) as (r & Hr & ->). exists r. split; auto.
      rewrite artifact_path_eq. unfold after.
      rewrite for_lines_count, count_nonblank_app.
      unfold count_nonblank at 3. simpl. now rewrite B.
  - apply format_03d_small.
  - intros l1 l2 l3 r1 r3 v1 v3 Hs Hp1 Hv1 Ht1 B2 C2 Hp3 Hv3 Ht3 R.
    cbv zeta. unfold after. rewrite Hs. simpl. unfold bind, ret.
    rewrite loop_body_parse, Hp1.
    destruct (process_record_reliable P r1 (count_line initial_state) w v1 R Hv1 Ht1)
      as (w1 & evs1 & E1 & T1 & A1).
    rewrite E1, loop_body_parse, (parse_line_no_colon 1 l2 B2 C2).
    rewrite loop_body_parse, Hp3.
    match goal with
    | |- context [process_record P r3 ?st ?w'] =>
        destruct (process_record_reliable P r3 st w' v3 R Hv3 Ht3)
          as (w3 & evs3 & E3 & T3 & A3)
    end.
    rewrite E3. simpl. repeat split.
    exists (evs1 ++ evs3). rewrite T3, T1, app_assoc, artifacts_app, A1, A3.
    split; auto. simpl. now rewrite !artifact_path_eq.
Qed.

Lemma processed_count_and_artifact_names_witness :
  let P := Demo.steady Demo.env_ok in
  let s := after P (splitlines (u "Krishna: Hello [softly] there
no colon here
Ganesha: hi friend")) {| ext := []; trace := [] |} in
  reliable P
  /\ line_processed_count (fst s) = 3
  /\ audio_files_generated_count (fst s) = 2
  /\ error_summary (fst s) = [u "Line 2 (Format Error): 'no colon here'"]
  /\ exists evs,
      trace (snd s) = evs
      /\ artifacts evs = [u "voice_overs/001_Krishna.mp3"; u "voice_overs/003_Ganesha.mp3"].
Proof.
  assert (R : reliable (Demo.steady Demo.env_ok)) by (intros s; repeat split).
  split; [exact R|].
  refine (proj2 (proj2 (proj2 (proj2
    (processed_count_and_artifact_names (Demo.steady Demo.env_ok)
       (u "Krishna: Hello [softly] there
no colon here
Ganesha: hi friend") {| ext := []; trace := [] |}))))
    (u "Krishna: Hello [softly] there") (u "no colon here") (u "Ganesha: hi friend")
    {| line_number := 1; character := u "Krishna";
       original_text := u "Hello [softly] there"; cleaned_text := u "Hello there" |}
    {| line_number := 3; character := u "Ganesha";
       original_text := u "hi friend"; cleaned_text := u "hi friend" |}
    (u "text-to-speech-en-in-standard-c") (u "text-to-speech-en-us-wavenet-e")
    _ _ _ _ _ _ _ _ _ R);
    try (vm_compute; reflexivity); try discriminate.
  vm_compute. intuition discriminate.
Defined.



(** C6.  A line whose character name is not a key of the registry (the
    lookup is exact: [krishna] is no key, [Krishna] is one) leaves
    exactly one error entry, which holds the name and the words
    [not configured]; nothing is called for it and no artifact is counted;
    the loop goes on with the lines that follow, which are all processed. *)
Theorem unconfigured_character_is_recoverable {PS} (P : Platform PS)
    (i : nat) (raw : str) (r : DialogueRecord) (st : LoopState) (w : World PS) :
  parse_line i raw = Dialogue r ->
  ~ In (character r) (map fst CHARACTER_VOICES) ->
  let s := loop_body P i raw st w in
  let entry := u "Line " ++ str_of_nat (i + 1) ++ u ": Character '"
               ++ character r ++ u "' not configured." in
  dict_get CHARACTER_VOICES (character r) = None
  /\ dict_get CHARACTER_VOICES (u "krishna") = None
  /\ dict_get CHARACTER_VOICES (u "Krishna") = Some (u "text-to-speech-en-in-standard-c")
  /\ snd s = w
  /\ error_summary (fst s) = error_summary st ++ [entry]
  /\ contains entry (character r) = true
  /\ contains entry (u "not configured") = true
  /\ audio_files_generated_count (fst s) = audio_files_generated_count st
  /\ output_html (fst s) = output_html st
  /\ forall rest,
      for_lines P i (raw :: rest) st w = for_lines P (S i) rest (fst s) w
      /\ line_processed_count (fst (for_lines P i (raw :: rest) st w))
         = line_processed_count st + 1 + count_nonblank rest.
Proof.
  intros Hp Hk. cbv zeta.
  assert (E : loop_body P i raw st w =
              (add_error (count_line st)
                 (not_configured_entry (i + 1) (character r)), w)).
  { rewrite loop_body_parse, Hp.
    destruct (parse_line_dialogue i raw r Hp) as (_ & <- & _).
    apply process_record_unconfigured. now apply dict_get_none. }
  rewrite E. cbn [fst snd].
  split; [now apply dict_get_none|]. split; [reflexivity|]. split; [reflexivity|].
  split; [reflexivity|]. split; [reflexivity|]. split; [|split].
  - apply (contains_later (u "Line ")), (contains_later (str_of_nat (i + 1))),
      (contains_later (u ": Character '")), contains_here.
  - apply (contains_later (u "Line ")), (contains_later (str_of_nat (i + 1))),
      (contains_later (u ": Character '")), (contains_later (character r)).
    reflexivity.
  - split; [reflexivity|]. split; [reflexivity|]. intros rest.
    rewrite for_lines_cons, E. cbn [fst snd]. split; [reflexivity|].
    rewrite for_lines_count. simpl. lia.
Qed.

Lemma unconfigured_character_is_recoverable_witness :
  let P := Demo.platform Demo.env_ok (u "text-to-speech-en-in-wavenet-d") in
  let s := loop_body P 0 (u "Zed: hello") initial_state (Demo.world (Some [])) in
  ~ In (u "Zed") (map fst CHARACTER_VOICES)
  /\ snd s = Demo.world (Some [])
  /\ error_summary (fst s) = [u "Line 1: Character 'Zed' not configured."]
  /\ audio_files_generated_count (fst s) = 0.
Proof.
  cbv zeta.
  assert (K : ~ In (u "Zed") (map fst CHARACTER_VOICES)).
  { vm_compute. intuition discriminate. }
  split; [exact K|].
  destruct (unconfigured_character_is_recoverable
              (Demo.platform Demo.env_ok (u "text-to-speech-en-in-wavenet-d"))
              0 (u "Zed: hello")
              {| line_number := 1; character := u "Zed";
                 original_text := u "hello"; cleaned_text := u "hello" |}
              initial_state (Demo.world (Some [])) eq_refl K)
    as (_ & _ & _ & H1 & H2 & _ & _ & H5 & _).
  split; [exact H1|]. split; [exact H2|]. exact H5.
Defined.

(** C5, as stated, fails: when the character of a line is not configured,
    the entry recorded for a dialogue that cleans to nothing is the one of
    the Voice Resolver, which runs first, and does not speak of the text. *)
Lemma empty_text_of_unconfigured_character :
  let P := Demo.platform Demo.env_ok (u "text-to-speech-en-in-wavenet-d") in
  let s := loop_body P 0 (u "Zed: [sigh]") initial_state (Demo.world (Some [])) in
  parse_line 0 (u "Zed: [sigh]")
  = Dialogue {| line_number := 1; character := u "Zed";
                original_text := u "[sigh]"; cleaned_text := [] |}
  /\ error_summary (fst s) = [u "Line 1: Character 'Zed' not configured."]
  /\ contains (u "Line 1: Character 'Zed' not configured.") no_text_message = false
  /\ error_summary (fst s) <> [line_error_entry 1 (u "Zed") no_text_message].
Proof. repeat split. discriminate. Qed.

(** C5, amended.  A line whose dialogue cleans to the empty string leaves
    exactly one error entry; nothing is called for it (no provider call,
    no file written) and no artifact is counted; the loop goes on with the
    lines that follow.  When the character is configured, the entry is
    the one that says no dialogue text remains, as for
    ["Krishna: [sigh]"]; when it is not, the entry is the one of the
    character that is not configured. *)
Theorem empty_cleaned_text_is_recoverable {PS} (P : Platform PS)
    (i : nat) (raw : str) (r : DialogueRecord) (st : LoopState) (w : World PS) :
  parse_line i raw = Dialogue r ->
  cleaned_text r = [] ->
  let s := loop_body P i raw st w in
  snd s = w
  /\ audio_files_generated_count (fst s) = audio_files_generated_count st
  /\ output_html (fst s) = output_html st
  /\ (exists e, error_summary (fst s) = error_summary st ++ [e])
  /\ (In (character r) (map fst CHARACTER_VOICES) ->
      error_summary (fst s) =
      error_summary st
      ++ [u "Line " ++ str_of_nat (i + 1) ++ u " (" ++ character r
          ++ u "): No dialogue text remaining after removing brackets."])
  /\ (~ In (character r) (map fst CHARACTER_VOICES) ->
      error_summary (fst s) =
      error_summary st
      ++ [u "Line " ++ str_of_nat (i + 1) ++ u ": Character '" ++ character r
          ++ u "' not configured."])
  /\ (forall rest,
        for_lines P i (raw :: rest) st w = for_lines P (S i) rest (fst s) w
        /\ line_processed_count (fst (for_lines P i (raw :: rest) st w))
           = line_processed_count st + 1 + count_nonblank rest)
  /\ parse_line 0 (u "Krishna: [sigh]")
     = Dialogue {| line_number := 1; character := u "Krishna";
                   original_text := u "[sigh]"; cleaned_text := [] |}.
Proof.
  intros Hp Ht. cbv zeta.
  destruct (parse_line_dialogue i raw r Hp) as (_ & Hn & _).
  assert (E : exists e,
             loop_body P i raw st w = (add_error (count_line st) e, w)
             /\ (In (character r) (map fst CHARACTER_VOICES) ->
                 e = line_error_entry (i + 1) (character r) no_text_message)
             /\ (~ In (character r) (map fst CHARACTER_VOICES) ->
                 e = not_configured_entry (i + 1) (character r))).
  { rewrite loop_body_parse, Hp.
    destruct (dict_get CHARACTER_VOICES (character r)) as [v|] eqn:Hv.
    - rewrite (process_record_no_text P r _ w v Hv Ht), Hn.
      eexists. split; [reflexivity|]. split; [reflexivity|].
      intros Hk. apply dict_get_none in Hk. congruence.
    - rewrite (process_record_unconfigured P r _ w Hv), Hn.
      eexists. split; [reflexivity|]. split; [|reflexivity].
      intros Hin. now apply dict_get_none in Hv. }
  destruct E as (e & E & He & Hu). rewrite E. cbn [fst snd].
  split; [reflexivity|]. split; [reflexivity|]. split; [reflexivity|].
  split; [now exists e|]. split; [|split; [|split; [|reflexivity]]].
  - intros Hin. rewrite (He Hin). reflexivity.
  - intros Hk. rewrite (Hu Hk). reflexivity.
  - intros rest. rewrite for_lines_cons, E. cbn [fst snd]. split; [reflexivity|].
    rewrite for_lines_count. simpl. lia.
Qed.

Lemma empty_cleaned_text_is_recoverable_witness :
  let P := Demo.platform Demo.env_ok (u "text-to-speech-en-in-wavenet-d") in
  let st := {| output_html := []; error_summary := [];
               audio_files_generated_count := 4; line_processed_count := 6 |} in
  let s := loop_body P 7 (u "Krishna: [sigh]  [pause]") st (Demo.world (Some [])) in
  In (u "Krishna") (map fst CHARACTER_VOICES)
  /\ snd s = Demo.world (Some [])
  /\ audio_files_generated_count (fst s) = 4
  /\ error_summary (fst s)
     = [u "Line 8 (Krishna): No dialogue text remaining after removing brackets."].
Proof.
  cbv zeta.
  assert (K : In (u "Krishna") (map fst CHARACTER_VOICES)) by (left; reflexivity).
  split; [exact K|].
  destruct (empty_cleaned_text_is_recoverable
              (Demo.platform Demo.env_ok (u "text-to-speech-en-in-wavenet-d"))
              7 (u "Krishna: [sigh]  [pause]")
              {| line_number := 8; character := u "Krishna";
                 original_text := u "[sigh]  [pause]"; cleaned_text := [] |}
              {| output_html := []; error_summary := [];
                 audio_files_generated_count := 4; line_processed_count := 6 |}
              (Demo.world (Some [])) eq_refl eq_refl)
    as (H1 & H2 & _ & _ & H5 & _).
  split; [exact H1|]. split; [exact H2|]. exact (H5 K).
Defined.

(** C8.  When the provider raises on the request of a line, the loop body
    still returns: the line leaves exactly one error entry, which carries
    the 1-based line number, the character name and the text of the
    exception; no artifact is written or counted; the loop goes on with
    the lines that follow, which are all processed. *)
Theorem provider_failure_is_recoverable {PS} (P : Platform PS)
    (i : nat) (raw : str) (r : DialogueRecord) (v e : str)
    (st : LoopState) (w : World PS) :
  parse_line i raw = Dialogue r ->
  dict_get CHARACTER_VOICES (character r) = Some v ->
  cleaned_text r <> [] ->
  provider_raises P v (cleaned_text r) (ext w) e ->
  let s := loop_body P i raw st w in
  error_summary (fst s) =
    error_summary st
    ++ [u "Line " ++ str_of_nat (i + 1) ++ u " (" ++ character r
        ++ u "): API Error for '" ++ character r ++ u "': " ++ e]
  /\ audio_files_generated_count (fst s) = audio_files_generated_count st
  /\ output_html (fst s) = output_html st
  /\ (exists evs, trace (snd s) = trace w ++ evs /\ artifacts evs = [])
  /\ forall rest,
      for_lines P i (raw :: rest) st w = for_lines P (S i) rest (fst s) (snd s)
      /\ line_processed_count (fst (for_lines P i (raw :: rest) st w))
         = line_processed_count st + 1 + count_nonblank rest.
Proof.
  intros Hp Hv Ht Hr. cbv zeta.
  destruct (parse_line_dialogue i raw r Hp) as (_ & Hn & _).
  destruct (process_record_provider_raises P r (count_line st) w v e Hv Ht Hr)
    as (w' & evs & E & T & A).
  assert (E' : loop_body P i raw st w =
               (add_error (count_line st)
                  (line_error_entry (i + 1) (character r)
                     (api_error_message (character r) e)), w')).
  { now rewrite loop_body_parse, Hp, E, Hn. }
  rewrite E'. cbn [fst snd].
  split; [reflexivity|]. split; [reflexivity|]. split; [reflexivity|].
  split; [now exists evs|].
  intros rest. rewrite for_lines_cons, E'. cbn [fst snd]. split; [reflexivity|].
  rewrite for_lines_count. simpl. lia.
Qed.

Lemma provider_failure_is_recoverable_witness :
  let P := Demo.platform Demo.env_ok (u "text-to-speech-en-in-wavenet-d") in
  let s := for_lines P 0 [u "Radha: hey [softly] you"; u "Krishna: hello"]
             initial_state (Demo.world (Some [])) in
  provider_raises P (u "text-to-speech-en-in-wavenet-d") (u "hey you") (Some [])
    (u "429 quota exceeded")
  /\ line_processed_count (fst s) = 2
  /\ error_summary (fst s)
     = [u "Line 1 (Radha): API Error for 'Radha': 429 quota exceeded"]
  /\ audio_files_generated_count (fst s) = 1.
Proof.
  cbv zeta.
  assert (R : provider_raises
                (Demo.platform Demo.env_ok (u "text-to-speech-en-in-wavenet-d"))
                (u "text-to-speech-en-in-wavenet-d") (u "hey you") (Some [])
                (u "429 quota exceeded")).
  { right. exists (Some []), (Some []). split; reflexivity. }
  split; [exact R|].
  destruct (provider_failure_is_recoverable
              (Demo.platform Demo.env_ok (u "text-to-speech-en-in-wavenet-d"))
              0 (u "Radha: hey [softly] you")
              {| line_number := 1; character := u "Radha";
                 original_text := u "hey [softly] you"; cleaned_text := u "hey you" |}
              (u "text-to-speech-en-in-wavenet-d") (u "429 quota exceeded")
              initial_state (Demo.world (Some [])) eq_refl eq_refl
              ltac:(discriminate) R)
    as (_ & _ & _ & _ & H).
  destruct (H [u "Krishna: hello"]) as (H1 & H2).
  split; [exact H2|]. rewrite H1. split; vm_compute; reflexivity.
Defined.

(** C2, as stated, fails on the text of the entry: the Format Error quotes
    the line after trimming, not the raw line of the script. *)
Lemma format_error_quotes_the_trimmed_line :
  let P := Demo.platform Demo.env_ok (u "text-to-speech-en-in-wavenet-d") in
  let raw := u "   oops, no colon  " in
  let s := loop_body P 0 raw initial_state (Demo.world (Some [])) in
  In raw (splitlines raw)
  /\ nonblank raw = true
  /\ error_summary (fst s) = [u "Line 1 (Format Error): 'oops, no colon'"]
  /\ error_summary (fst s) <> [u "Line 1 (Format Error): '" ++ raw ++ u "'"].
Proof. repeat split. - now left. - discriminate. Qed.

(** C2, amended.  A non-blank line, once trimmed, either splits at its
    first colon into two segments that are not empty after trimming, or
    it does not.  In the first case the parser gives exactly one Dialogue
    Record, made of the trimmed segments, the loop processes that record,
    and the entry it may leave is no Format Error.  In the second case the
    parser gives no record, the loop adds exactly one entry, the Format
    Error with the 1-based line number and the trimmed line, calls
    nothing, and goes on with the next line. *)
Theorem line_gives_record_or_format_error {PS} (P : Platform PS)
    (i : nat) (raw : str) (st : LoopState) (w : World PS) :
  nonblank raw = true ->
  let line := strip raw in
  let entry := u "Line " ++ str_of_nat (i + 1) ++ u " (Format Error): '"
               ++ line ++ u "'" in
  let splits := fun a b => line = a ++ COLON :: b /\ ~ In COLON a in
  ((exists a b, splits a b /\ strip a <> [] /\ strip b <> [])
   \/ ~ In COLON line
   \/ (exists a b, splits a b /\ (strip a = [] \/ strip b = [])))
  /\ (forall a b,
        splits a b -> strip a <> [] -> strip b <> [] ->
        let r := {| line_number := i + 1; character := strip a;
                    original_text := strip b; cleaned_text := clean (strip b) |} in
        parse_line i raw = Dialogue r
        /\ loop_body P i raw st w = process_record P r (count_line st) w
        /\ forall e, error_summary (fst (loop_body P i raw st w))
                     = error_summary st ++ [e] ->
                     forall n l, e <> format_error_entry n l)
  /\ ((~ In COLON line
       \/ (exists a b, splits a b /\ (strip a = [] \/ strip b = []))) ->
      parse_line i raw = FormatError entry
      /\ loop_body P i raw st w = (add_error (count_line st) entry, w)
      /\ forall rest,
          for_lines P i (raw :: rest) st w
          = for_lines P (S i) rest (add_error (count_line st) entry) w).
Proof.
  intros B. cbv zeta. unfold nonblank in B. split; [|split].
  - destruct (split1_parts COLON (strip raw)) as [[H _]|(a & b & H1 & H2 & _)]; auto.
    destruct (strip a) eqn:Ea; [right; right; exists a, b; auto|].
    destruct (strip b) eqn:Eb; [right; right; exists a, b; auto|].
    left. exists a, b. rewrite Ea, Eb. repeat split; auto; discriminate.
  - intros a b [H1 H2] Ha Hb.
    assert (Hp : parse_line i raw =
                 Dialogue {| line_number := i + 1; character := strip a;
                             original_text := strip b;
                             cleaned_text := clean (strip b) |}).
    { unfold parse_line. rewrite B. simpl negb. cbv iota.
      rewrite H1, malformed_split, split1_unique by assumption.
      apply truthy_true in Ha, Hb. now rewrite Ha, Hb. }
    split; [exact Hp|]. rewrite loop_body_parse, Hp. split; [reflexivity|].
    intros e He.
    destruct (process_record_no_format_error P
                {| line_number := i + 1; character := strip a;
                   original_text := strip b; cleaned_text := clean (strip b) |}
                (count_line st) w) as [E|(e' & E & Hn)];
      cbv zeta in E; rewrite E in He; simpl in He.
    + apply (f_equal (@length str)) in He. rewrite length_app in He.
      simpl in He. lia.
    + apply app_inv_head in He. inversion He; subst. exact Hn.
  - intros H.
    assert (M : malformed (split1 COLON (strip raw)) = true).
    { destruct H as [H|(a & b & [H1 H2] & H3)].
      - now apply malformed_no_colon.
      - rewrite H1, malformed_split by assumption.
        destruct H3 as [-> | ->]; simpl; auto using orb_true_r. }
    assert (Hp : parse_line i raw =
                 FormatError (format_error_entry (i + 1) (strip raw))).
    { unfold parse_line. now rewrite B, M. }
    split; [exact Hp|].
    assert (E : loop_body P i raw st w =
                (add_error (count_line st)
                   (format_error_entry (i + 1) (strip raw)), w)).
    { now rewrite loop_body_parse, Hp. }
    split; [exact E|]. intros rest. now rewrite for_lines_cons, E.
Qed.

Lemma line_gives_record_or_format_error_witness :
  let P := Demo.platform Demo.env_ok (u "text-to-speech-en-in-wavenet-d") in
  nonblank (u "  Narrator :  ") = true
  /\ loop_body P 4 (u "  Narrator :  ") initial_state (Demo.world (Some []))
     = (add_error (count_line initial_state)
          (u "Line 5 (Format Error): 'Narrator :'"), Demo.world (Some [])).
Proof.
  cbv zeta.
  assert (B : nonblank (u "  Narrator :  ") = true) by reflexivity.
  split; [exact B|].
  refine (proj1 (proj2 (proj2 (proj2
    (line_gives_record_or_format_error
       (Demo.platform Demo.env_ok (u "text-to-speech-en-in-wavenet-d"))
       4 (u "  Narrator :  ") initial_state (Demo.world (Some [])) B)) _))).
  right. exists (u "Narrator "), []. repeat split; auto.
  vm_compute. intuition discriminate.
Defined.

(** C7.  With no file, the batch stops at once with the message that asks
    for one; with a file whose lower-cased name does not end in [.txt], it
    stops at once with the message on the file type; in both cases nothing
    at all is called.  When the initialisation of the provider fails, the
    batch stops with the message of that failure as its only output, and
    no call of the client or write of a file is made; this is the case
    when [GCP_PROJECT_ID] is absent or empty, where the failure is the
    configuration error and nothing is called, and when [vertexai.init]
    raises.  In every case the
    rendering is empty and the clear button hidden: no line was parsed or
    processed. *)
Theorem batch_level_errors_stop_the_batch {PS} (P : Platform PS) (w : World PS) :
  generate_voice_over P None w
  = ((u "Please upload a script file.", [], false), w)
  /\ (forall f,
        endswith (str_lower P (name f)) (u ".txt") = false ->
        generate_voice_over P (Some f) w
        = ((u "Invalid File Type: Please upload a .txt file.", [], false), w))
  /\ (forall f e,
        endswith (str_lower P (name f)) (u ".txt") = true ->
        fst (initialize_vertex_ai P w) = Raised e ->
        generate_voice_over P (Some f) w
        = ((e, [], false), snd (initialize_vertex_ai P w))
        /\ truthy e = true
        /\ exists evs,
            trace (snd (initialize_vertex_ai P w)) = trace w ++ evs
            /\ per_line_calls evs = [] /\ artifacts evs = [])
  /\ (opt_truthy (environ_get P (u "GCP_PROJECT_ID")) = false ->
      initialize_vertex_ai P w
      = (Raised (u "Configuration Error: GCP_PROJECT_ID environment variable is not set. Please set it in the Cloud Run deployment settings."), w))
  /\ (forall pid e s1,
        environ_get P (u "GCP_PROJECT_ID") = Some pid -> truthy pid = true ->
        vertexai_init P pid
          (match environ_get P (u "GCP_LOCATION") with
           | Some l => l
           | None => u "us-central1"
           end) (ext w) = (Raised e, s1) ->
        fst (initialize_vertex_ai P w)
        = Raised (u "Vertex AI Init Failed. Check Service Account permissions. Original error: " ++ e)).
Proof.
  split; [reflexivity|]. split; [|split; [|split]].
  - intros f H. unfold generate_voice_over. now rewrite H.
  - intros f e H E. unfold generate_voice_over, bind. rewrite H.
    cbn [negb]. cbv beta iota.
    destruct (initialize_vertex_ai P w) as [[[]|e'] w1] eqn:I; simpl in E;
      [discriminate|]. inversion E; subst e'. cbn [fst snd].
    split; [reflexivity|].
    destruct (initialize_vertex_ai_calls P w) as (evs & T & C & A & M).
    rewrite I in T, M. split; [now apply M|]. now exists evs.
  - intros H. unfold initialize_vertex_ai.
    destruct (environ_get P (u "GCP_PROJECT_ID")) as [pid|]; [|reflexivity].
    simpl in H. now rewrite H.
  - intros pid e s1 Hp Ht Hi. unfold initialize_vertex_ai.
    rewrite Hp, Ht. unfold bind, call, print. cbn [ext trace].
    now rewrite Hi.
Qed.

Lemma batch_level_errors_stop_the_batch_witness :
  let P := Demo.platform Demo.env_missing (u "text-to-speech-en-in-wavenet-d") in
  opt_truthy (environ_get P (u "GCP_PROJECT_ID")) = false
  /\ endswith (str_lower P (u "Script.TXT")) (u ".txt") = true
  /\ generate_voice_over P (Demo.script "Krishna: hello") (Demo.world (Some []))
     = ((u "Configuration Error: GCP_PROJECT_ID environment variable is not set. Please set it in the Cloud Run deployment settings.", [], false),
        Demo.world (Some [])).
Proof.
  cbv zeta.
  pose (P := Demo.platform Demo.env_missing (u "text-to-speech-en-in-wavenet-d")).
  assert (H : opt_truthy (environ_get P (u "GCP_PROJECT_ID")) = false) by reflexivity.
  assert (T : endswith (str_lower P (u "Script.TXT")) (u ".txt") = true) by reflexivity.
  split; [exact H|]. split; [exact T|].
  destruct (batch_level_errors_stop_the_batch P (Demo.world (Some [])))
    as (_ & _ & H3 & H4 & _).
  specialize (H4 H).
  destruct (H3 {| name := u "Script.TXT"; read_decoded := Ok (u "Krishna: hello") |}
               _ T (f_equal fst H4)) as (E & _).
  subst P. unfold Demo.script. rewrite E, H4. reflexivity.
Defined.

(** C9.  When the output directory is absent, clearing deletes nothing,
    calls nothing and returns the message that says so.  When it is there
    and empty, clearing returns the count zero.  When it is there, one
    deletion is attempted for every name it lists, in order, whatever the
    outcome of the deletions before; the count returned is the number of
    deletions done, and each failure is printed. *)
Theorem clear_sweeps_the_directory {PS} (P : Platform PS) (w : World PS) :
  (path_exists P (OUTPUT_DIR P) (ext w) = false ->
   clear_generated_files P w
   = (Ok (u "Directory does not exist.", [], false), w))
  /\ (path_exists P (OUTPUT_DIR P) (ext w) = true ->
      listdir P (OUTPUT_DIR P) (ext w) = Ok [] ->
      clear_generated_files P w = (Ok (u "Cleared 0 files.", [], false), w))
  /\ (forall filenames,
        path_exists P (OUTPUT_DIR P) (ext w) = true ->
        listdir P (OUTPUT_DIR P) (ext w) = Ok filenames ->
        exists w' evs,
          clear_generated_files P w
          = (Ok (u "Cleared " ++ str_of_nat (length (filter snd (removals evs)))
                 ++ u " files.", [], false), w')
          /\ trace w' = trace w ++ evs
          /\ map fst (removals evs) = map (path_join (OUTPUT_DIR P)) filenames
          /\ length (prints evs)
             = length (filter (fun x => negb (snd x)) (removals evs))).
Proof.
  unfold clear_generated_files. split; [|split].
  - now intros ->.
  - intros -> ->. simpl. unfold ret. reflexivity.
  - intros filenames -> ->. simpl negb. cbv iota.
    destruct (remove_all_sweep P filenames 0 w) as (w' & evs & E & T & R & L).
    rewrite E. exists w', evs. auto.
Qed.

Lemma clear_sweeps_the_directory_witness :
  let P := Demo.platform Demo.env_ok (u "text-to-speech-en-in-wavenet-d") in
  let w := Demo.world (Some [u "voice_overs/001_Krishna.mp3";
                             u "voice_overs/notes.locked";
                             u "voice_overs/003_Radha.mp3"]) in
  path_exists P (OUTPUT_DIR P) (ext w) = true
  /\ path_exists P (OUTPUT_DIR P) (ext (Demo.world None)) = false
  /\ clear_generated_files P (Demo.world None)
     = (Ok (u "Directory does not exist.", [], false), Demo.world None)
  /\ fst (clear_generated_files P w) = Ok (u "Cleared 2 files.", [], false)
  /\ ext (snd (clear_generated_files P w)) = Some [u "voice_overs/notes.locked"].
Proof.
  cbv zeta.
  pose (P := Demo.platform Demo.env_ok (u "text-to-speech-en-in-wavenet-d")).
  pose (w := Demo.world (Some [u "voice_overs/001_Krishna.mp3";
                               u "voice_overs/notes.locked";
                               u "voice_overs/003_Radha.mp3"])).
  assert (X : path_exists P (OUTPUT_DIR P) (ext w) = true) by reflexivity.
  assert (N : path_exists P (OUTPUT_DIR P) (ext (Demo.world None)) = false)
    by reflexivity.
  split; [exact X|]. split; [exact N|].
  split; [exact (proj1 (clear_sweeps_the_directory P (Demo.world None)) N)|].
  destruct (proj2 (proj2 (clear_sweeps_the_directory P w))
              [u "001_Krishna.mp3"; u "notes.locked"; u "003_Radha.mp3"]
              X eq_refl) as (w' & evs & E & _).
  split; vm_compute; reflexivity.
Defined.

(** * Further properties of the program *)

(** ** File names *)

Lemma nat_of_digits_uint (d : Decimal.uint) (acc : nat) :
  fold_left (fun acc c => 10 * acc + (N.to_nat c - 48))
            (u (DecimalString.NilEmpty.string_of_uint d)) acc
  = Nat.of_uint_acc d acc.
Proof.
  revert acc. unfold u.
  induction d; intros acc; cbn [DecimalString.NilEmpty.string_of_uint
    list_ascii_of_string map fold_left Nat.of_uint_acc]; auto;
    rewrite IHd, Nat.tail_mul_spec; f_equal; simpl; lia.
Qed.

Lemma nat_of_digits_str_of_nat (n : nat) : nat_of_digits (str_of_nat n) = n.
Proof.
  unfold nat_of_digits, str_of_nat. rewrite nat_of_digits_uint.
  apply DecimalNat.Unsigned.of_to.
Qed.

Lemma nat_of_digits_zeros (m : nat) (s : str) :
  nat_of_digits (repeat 0x30%N m ++ s) = nat_of_digits s.
Proof.
  unfold nat_of_digits. induction m as [|m IH]; auto.
Qed.

Lemma nat_of_digits_format_03d (n : nat) : nat_of_digits (format_03d n) = n.
Proof.
  unfold format_03d. now rewrite nat_of_digits_zeros, nat_of_digits_str_of_nat.
Qed.

Lemma format_03d_digits (n : nat) : Forall is_digit (format_03d n).
Proof.
  unfold format_03d. apply Forall_app. split.
  - apply Forall_forall. intros c Hc. apply repeat_spec in Hc. now subst.
  - apply str_of_nat_digits.
Qed.

Lemma format_03d_length (n : nat) : 3 <= length (format_03d n).
Proof.
  unfold format_03d. rewrite length_app, repeat_length.
  unfold str, char. lia.
Qed.

Lemma artifact_path_index {PS} (P : Platform PS) (k k' : nat) (n n' : str) :
  artifact_path P k n = artifact_path P k' n' -> k = k' /\ n = n'.
Proof.
  rewrite !artifact_path_eq. intros E.
  apply app_inv_head, app_inv_head in E.
  apply (digits_then _ _ 0x5F%N 0x5F%N) in E as (E & _ & E');
    auto using format_03d_digits; try discriminate.
  split.
  - rewrite <- (nat_of_digits_format_03d k), E. apply nat_of_digits_format_03d.
  - now apply app_inv_tail in E'.
Qed.

(** X16.  The index of a file name reads back as the count it was made
    from, whatever the count: the format pads to three digits and never
    cuts, so two counts never give the same index. *)
Theorem file_index_round_trip :
  (forall n, nat_of_digits (format_03d n) = n)
  /\ (forall n, 3 <= length (format_03d n) /\ Forall is_digit (format_03d n))
  /\ (forall n, 100 <= n -> format_03d n = str_of_nat n)
  /\ (forall n m, format_03d n = format_03d m -> n = m).
Proof.
  split; [exact nat_of_digits_format_03d|]. split; [|split].
  - intros n. split; [apply format_03d_length|apply format_03d_digits].
  - intros n H. unfold format_03d.
    assert (L : 3 <= length (str_of_nat n)).
    { destruct (le_lt_dec 3 (length (str_of_nat n))) as [|L]; auto. exfalso.
      pose proof (nat_of_digits_str_of_nat n) as R.
      pose proof (str_of_nat_digits n) as D.
      destruct (str_of_nat n) as [|a [|b [|c t]]]; simpl in L; try lia;
        unfold nat_of_digits in R; simpl in R.
      - lia.
      - inversion D as [|? ? Da _]; subst.
        unfold is_digit, between in Da. apply andb_prop in Da as [_ Da].
        apply N.leb_le in Da. lia.
      - inversion D as [|? ? Da D']; subst. inversion D' as [|? ? Db _]; subst.
        unfold is_digit, between in Da, Db.
        apply andb_prop in Da as [_ Da]. apply andb_prop in Db as [_ Db].
        apply N.leb_le in Da, Db. lia. }
    replace (3 - length (str_of_nat n)) with 0 by lia. reflexivity.
  - intros n m E. rewrite <- (nat_of_digits_format_03d n), E.
    apply nat_of_digits_format_03d.
Qed.

Lemma file_index_round_trip_witness :
  100 <= 1000 /\ format_03d 1000 = u "1000" /\ nat_of_digits (u "007") = 7.
Proof.
  assert (H : 100 <= 1000) by exact (proj1 (Nat.leb_le 100 1000) eq_refl).
  split; [exact H|]. split.
  - rewrite (proj1 (proj2 (proj2 file_index_round_trip)) 1000 H). reflexivity.
  - exact (proj1 file_index_round_trip 7).
Defined.


(** ** More on the cleaner *)

Lemma sub_spaces_from_space b (s : str) (c : char) :
  In c (sub_spaces_from b s) -> is_space c = true -> c = SP.
Proof.
  revert b. induction s as [|x r IH]; simpl; intros b; [tauto|].
  destruct (is_space x) eqn:E.
  - destruct b; simpl; eauto. intros [<-|H]; eauto.
  - simpl. intros [<-|H] Hc; [congruence|eauto].
Qed.

Lemma sub_spaces_from_length b (s : str) :
  length (sub_spaces_from b s) <= length s.
Proof.
  revert b. induction s as [|x r IH]; simpl; intros b; auto.
  pose proof (IH true). pose proof (IH false).
  destruct (is_space x); [destruct b|]; simpl; lia.
Qed.

Lemma sub_spaces_from_two_spaces b (a t : str) :
  length (sub_spaces_from b (a ++ SP :: SP :: t)) < length (a ++ SP :: SP :: t).
Proof.
  revert b. induction a as [|x r IH]; intros b.
  - cbn [app sub_spaces_from]. rewrite is_space_SP.
    pose proof (sub_spaces_from_length true t). destruct b; simpl; lia.
  - cbn [app sub_spaces_from]. pose proof (IH true). pose proof (IH false).
    destruct (is_space x); [destruct b|]; simpl; lia.
Qed.

Lemma sub_brackets_from_length (k : nat) (s : str) :
  length (sub_brackets_from k s) <= length s.
Proof.
  revert k. induction s as [|c r IH]; simpl; intros k; auto.
  destruct k as [|k].
  - pose proof (IH 0).
    destruct (c =? LBRACKET)%N; [destruct (match_to_close r) as [n|]|]; simpl;
      try lia.
    pose proof (IH n). lia.
  - pose proof (IH k). lia.
Qed.

Lemma lstrip_length (s : str) : length (lstrip s) <= length s.
Proof.
  induction s as [|c r IH]; simpl; auto. destruct (is_space c); simpl; lia.
Qed.

Lemma strip_length (s : str) : length (strip s) <= length s.
Proof.
  unfold strip, rstrip. rewrite length_rev.
  pose proof (lstrip_length (rev (lstrip s))) as H. rewrite length_rev in H.
  pose proof (lstrip_length s). lia.
Qed.

Lemma lstrip_all_space (s : str) :
  forallb is_space (lstrip s) = forallb is_space s.
Proof.
  induction s as [|c r IH]; simpl; auto.
  destruct (is_space c) eqn:E; simpl; auto. now rewrite E.
Qed.

Lemma strip_truthy (s : str) : truthy (strip s) = negb (forallb is_space s).
Proof. unfold strip. now rewrite rstrip_truthy, lstrip_all_space. Qed.

Lemma sub_spaces_truthy (s : str) : truthy (sub_spaces s) = truthy s.
Proof.
  unfold sub_spaces. destruct s as [|c r]; simpl; auto. now destruct (is_space c).
Qed.

Lemma no_span_without (s : str) :
  ~ In LBRACKET s \/ ~ In RBRACKET s -> no_span s.
Proof.
  induction s as [|c r IH]; simpl; auto.
  intros H. split; [|apply IH; tauto].
  intros ->. destruct H as [H|H]; tauto.
Qed.

(** X8.  A cleaned text is in normal form: it has no whitespace at either
    end, its only whitespace characters are spaces, no two of them are
    adjacent, and collapsing it again changes nothing. *)
Theorem clean_normal_form (s : str) :
  strip (clean s) = clean s
  /\ sub_spaces (clean s) = clean s
  /\ (forall c, In c (clean s) -> is_space c = true -> c = SP)
  /\ (forall a t, clean s <> a ++ SP :: SP :: t).
Proof.
  assert (I : sub_spaces (clean s) = clean s) by apply sub_spaces_idem.
  split; [|split; [exact I|split]].
  - unfold clean. now rewrite strip_sub_spaces, strip_idem.
  - intros c. apply sub_spaces_from_space.
  - intros a t E. pose proof (sub_spaces_from_two_spaces false a t) as L.
    fold (sub_spaces (a ++ SP :: SP :: t)) in L. rewrite <- E, I in L. lia.
Qed.

Lemma clean_normal_form_witness :
  In SP (clean (u "  wait [pause]   for  me ")) /\ is_space SP = true
  /\ strip (clean (u "  wait [pause]   for  me ")) = u "wait for me".
Proof.
  assert (H : In SP (clean (u "  wait [pause]   for  me ")))
    by (vm_compute; right; right; right; right; left; reflexivity).
  split; [exact H|]. split; [reflexivity|].
  destruct (clean_normal_form (u "  wait [pause]   for  me ")) as (S1 & _ & S3 & _).
  pose proof (S3 SP H eq_refl) as _. rewrite S1. reflexivity.
Defined.

(** X9.  Cleaning only removes: the cleaned text is never longer than the
    dialogue, and each of its characters is a character of the dialogue
    or the space that stands for a run of whitespace. *)
Theorem clean_only_removes (s : str) :
  length (clean s) <= length s
  /\ (forall c, In c (clean s) -> In c s \/ c = SP)
  /\ (forall c, In c (clean s) -> is_space c = false -> In c s).
Proof.
  assert (H : forall c, In c (clean s) -> In c s \/ c = SP).
  { unfold clean. intros c [-> | Hc]%sub_spaces_from_incl; auto.
    left. now apply strip_incl, sub_brackets_from_incl in Hc. }
  split; [|split; [exact H|]].
  - unfold clean, sub_spaces, sub_brackets.
    pose proof (sub_spaces_from_length false (strip (sub_brackets_from 0 s))).
    pose proof (strip_length (sub_brackets_from 0 s)).
    pose proof (sub_brackets_from_length 0 s). lia.
  - intros c Hc E. destruct (H c Hc) as [ | -> ]; auto. discriminate.
Qed.

Lemma clean_only_removes_witness :
  In 0x6D%N (clean (u "[aside] for   me"))
  /\ In 0x6D%N (u "[aside] for   me")
  /\ length (clean (u "[aside] for   me")) <= length (u "[aside] for   me").
Proof.
  assert (H : In 0x6D%N (clean (u "[aside] for   me")))
    by (vm_compute; do 4 right; left; reflexivity).
  destruct (clean_only_removes (u "[aside] for   me")) as (L & _ & K).
  split; [exact H|]. split; [exact (K _ H eq_refl)|exact L].
Defined.

(** X18.  Nothing is left to speak exactly when the dialogue, once its
    bracketed spans are removed, holds whitespace only. *)
Theorem clean_empty_iff (s : str) :
  clean s = [] <-> forallb is_space (sub_brackets s) = true.
Proof.
  unfold clean. rewrite <- truthy_false, sub_spaces_truthy, strip_truthy.
  destruct (forallb is_space (sub_brackets s)); simpl; split; congruence.
Qed.

Lemma clean_empty_iff_witness :
  forallb is_space (sub_brackets (u "[sigh]  [long pause] ")) = true
  /\ clean (u "[sigh]  [long pause] ") = [].
Proof.
  assert (H : forallb is_space (sub_brackets (u "[sigh]  [long pause] ")) = true)
    by reflexivity.
  split; [exact H|]. exact (proj2 (clean_empty_iff _) H).
Defined.

(** X19.  A bracket without its partner removes nothing: a dialogue with
    no opening bracket, or with no closing bracket, is only trimmed and
    has its whitespace collapsed, so an unclosed note is kept, bracket
    included. *)
Theorem unpaired_bracket_is_kept (s : str) :
  ~ In LBRACKET s \/ ~ In RBRACKET s ->
  sub_brackets s = s /\ clean s = sub_spaces (strip s).
Proof.
  intros H. apply no_span_without, sub_brackets_no_span in H.
  unfold clean. now rewrite H.
Qed.

Lemma unpaired_bracket_is_kept_witness :
  (~ In LBRACKET (u "[whisper  come here") \/ ~ In RBRACKET (u "[whisper  come here"))
  /\ clean (u "[whisper  come here") = u "[whisper come here".
Proof.
  assert (H : ~ In LBRACKET (u "[whisper  come here")
              \/ ~ In RBRACKET (u "[whisper  come here")).
  { right. vm_compute. intuition discriminate. }
  split; [exact H|].
  rewrite (proj2 (unpaired_bracket_is_kept (u "[whisper  come here") H)).
  reflexivity.
Defined.

(** ** Line endings *)

Lemma not_linebreak_not_LF (x : char) : is_linebreak x = false -> (x =? LF)%N = false.
Proof.
  intros H. destruct (N.eqb_spec x LF) as [->|]; [exact H|reflexivity].
Qed.

Lemma splitlines_from_line (l : str) (c : char) (rest : str) (b : bool) (cur : str) :
  (forall x, In x l -> is_linebreak x = false) ->
  is_linebreak c = true -> b = false \/ c <> LF ->
  splitlines_from b cur (l ++ c :: rest)
  = (rev cur ++ l) :: splitlines_from (c =? CR)%N [] rest.
Proof.
  revert b cur. induction l as [|x l IH]; intros b cur Hl Hc Hb.
  - cbn [app splitlines_from].
    assert (E : b && (c =? LF)%N = false).
    { destruct Hb as [->|Hb]; auto. apply N.eqb_neq in Hb. rewrite Hb.
      apply andb_false_r. }
    now rewrite E, Hc, app_nil_r.
  - cbn [app splitlines_from].
    assert (Hx : is_linebreak x = false) by (apply Hl; now left).
    rewrite (not_linebreak_not_LF x Hx), andb_false_r, Hx.
    rewrite IH; auto.
    + cbn [rev]. now rewrite <- app_assoc.
    + intros y Hy. apply Hl. now right.
Qed.

Lemma splitlines_from_last (l : str) (b : bool) (cur : str) :
  (forall x, In x l -> is_linebreak x = false) -> l <> [] ->
  splitlines_from b cur l = [rev cur ++ l].
Proof.
  revert b cur. induction l as [|x l IH]; intros b cur Hl Hn; [congruence|].
  cbn [splitlines_from].
  assert (Hx : is_linebreak x = false) by (apply Hl; now left).
  rewrite (not_linebreak_not_LF x Hx), andb_false_r, Hx.
  destruct l as [|y l'].
  - cbn [splitlines_from rev]. reflexivity.
  - rewrite IH; [|intros z Hz; apply Hl; now right|discriminate].
    cbn [rev]. now rewrite <- app_assoc.
Qed.

Lemma splitlines_terminated (eol : str) (lines : list str) (tail : str) :
  eol = [LF] \/ eol = [CR; LF] ->
  (forall l x, In l lines -> In x l -> is_linebreak x = false) ->
  splitlines_from false [] (terminated eol lines ++ tail)
  = lines ++ splitlines_from false [] tail.
Proof.
  intros He Hl. induction lines as [|l ls IH]; [reflexivity|].
  unfold terminated. cbn [map concat]. fold (terminated eol ls).
  rewrite <- !app_assoc.
  assert (Hl' : forall x, In x l -> is_linebreak x = false)
    by (intros x; apply Hl; now left).
  assert (IH' : splitlines_from false [] (terminated eol ls ++ tail)
                = ls ++ splitlines_from false [] tail).
  { apply IH. intros l0 x H0. apply Hl. now right. }
  destruct He as [-> | ->]; cbn [app].
  - rewrite (splitlines_from_line l LF _ false []); auto. cbn [rev app].
    change (LF =? CR)%N with false. now rewrite IH'.
  - rewrite (splitlines_from_line l CR _ false []); auto. cbn [rev app].
    change (CR =? CR)%N with true. cbn [splitlines_from andb].
    change (LF =? LF)%N with true. cbv iota. now rewrite IH'.
Qed.

Lemma splitlines_terminated_CR (lines : list str) (b : bool) :
  (forall l x, In l lines -> In x l -> is_linebreak x = false) ->
  splitlines_from b [] (terminated [CR] lines) = lines.
Proof.
  revert b. induction lines as [|l ls IH]; intros b Hl; [reflexivity|].
  unfold terminated. cbn [map concat]. fold (terminated [CR] ls).
  rewrite <- app_assoc. cbn [app].
  rewrite (splitlines_from_line l CR _ b []).
  - cbn [rev app]. rewrite IH; auto. intros l0 x H0. apply Hl. now right.
  - intros x. apply Hl. now left.
  - reflexivity.
  - right. discriminate.
Qed.

Lemma splitlines_terminated_CR_last (lines : list str) (last : str) (b : bool) :
  (forall l x, In l lines -> In x l -> is_linebreak x = false) ->
  (forall x, In x last -> is_linebreak x = false) -> last <> [] ->
  splitlines_from b [] (terminated [CR] lines ++ last) = lines ++ [last].
Proof.
  revert b. induction lines as [|l ls IH]; intros b Hl Hlast Hn.
  - cbn [terminated map concat app]. now rewrite splitlines_from_last.
  - unfold terminated. cbn [map concat]. fold (terminated [CR] ls).
    rewrite <- !app_assoc. cbn [app].
    rewrite (splitlines_from_line l CR _ b []).
    + cbn [rev app]. rewrite IH; auto. intros l0 x H0. apply Hl. now right.
    + intros x. apply Hl. now left.
    + reflexivity.
    + right. discriminate.
Qed.

(** X10.  Line endings do not matter: a script whose lines end in a line
    feed, in a carriage return and a line feed, or in a carriage return
    is split into the same lines, whether or not the last line has its
    ending; so the loop ends in the same state on all of them. *)
Theorem line_endings_are_alike {PS} (P : Platform PS)
    (lines : list str) (last : str) (w : World PS) :
  (forall l x, In l lines -> In x l -> is_linebreak x = false) ->
  (forall x, In x last -> is_linebreak x = false) -> last <> [] ->
  splitlines (terminated [LF] lines) = lines
  /\ splitlines (terminated [CR; LF] lines) = lines
  /\ splitlines (terminated [CR] lines) = lines
  /\ splitlines (terminated [LF] lines ++ last) = lines ++ [last]
  /\ splitlines (terminated [CR; LF] lines ++ last) = lines ++ [last]
  /\ after P (splitlines (terminated [CR; LF] lines)) w
     = after P (splitlines (terminated [LF] lines)) w
  /\ splitlines (terminated [CR] lines ++ last) = lines ++ [last]
  /\ after P (splitlines (terminated [CR] lines)) w
     = after P (splitlines (terminated [LF] lines)) w
  /\ after P (splitlines (terminated [CR; LF] lines ++ last)) w
     = after P (splitlines (terminated [LF] lines ++ last)) w
  /\ after P (splitlines (terminated [CR] lines ++ last)) w
     = after P (splitlines (terminated [LF] lines ++ last)) w.
Proof.
  intros Hl Hlast Hn. unfold splitlines.
  pose proof (splitlines_terminated [LF] lines [] (or_introl eq_refl) Hl) as A.
  pose proof (splitlines_terminated [CR; LF] lines [] (or_intror eq_refl) Hl) as B.
  rewrite !app_nil_r in A, B. cbn [splitlines_from] in A, B.
  rewrite A, B, (splitlines_terminated_CR lines false Hl).
  rewrite (splitlines_terminated [LF] lines last (or_introl eq_refl) Hl).
  rewrite (splitlines_terminated [CR; LF] lines last (or_intror eq_refl) Hl).
  rewrite (splitlines_from_last last false [] Hlast Hn).
  rewrite (splitlines_terminated_CR_last lines last false Hl Hlast Hn).
  repeat split.
Qed.

Lemma line_endings_are_alike_witness :
  let lines := [u "Krishna: hello"; []; u "Radha: [softly] hi"] in
  splitlines (terminated [CR; LF] lines ++ u "Zed: bye") = lines ++ [u "Zed: bye"].
Proof.
  cbv zeta.
  refine (proj1 (proj2 (proj2 (proj2 (proj2
    (line_endings_are_alike (Demo.steady Demo.env_ok)
       [u "Krishna: hello"; []; u "Radha: [softly] hi"] (u "Zed: bye")
       {| ext := []; trace := [] |} _ _ _)))))).
  - intros l x [<-|[<-|[<-|[]]]] Hx; vm_compute in Hx;
      repeat (destruct Hx as [<-|Hx]; [reflexivity|]); destruct Hx.
  - intros x Hx; vm_compute in Hx;
      repeat (destruct Hx as [<-|Hx]; [reflexivity|]); destruct Hx.
  - discriminate.
Defined.

(** ** Dialogue Records *)

(** X11.  What the parser guarantees of a Dialogue Record: its number is
    the 1-based index of the line; its character name and its dialogue
    are the trimmed segments before and after the first colon of the
    trimmed line, so the name holds no colon while the dialogue may; both
    are non-empty and have no whitespace at either end; the cleaned text
    is the cleaning of the dialogue. *)
Theorem dialogue_record_invariants (i : nat) (line : str) (r : DialogueRecord) :
  parse_line i line = Dialogue r ->
  line_number r = i + 1
  /\ (exists a b, strip line = a ++ COLON :: b /\ ~ In COLON a
                  /\ character r = strip a /\ original_text r = strip b)
  /\ character r <> [] /\ original_text r <> []
  /\ ~ In COLON (character r)
  /\ strip (character r) = character r
  /\ strip (original_text r) = original_text r
  /\ cleaned_text r = clean (original_text r).
Proof.
  intros Hp. destruct (parse_line_dialogue i line r Hp) as (_ & Hn & Hc & Ho & Hcl & M).
  split; [exact Hn|].
  destruct (split1_parts COLON (strip line)) as [[_ E]|(a & b & E1 & E2 & E3)].
  { rewrite E in M. discriminate. }
  rewrite E3 in Hc, Ho, M. cbn [nth] in Hc, Ho. unfold malformed in M.
  cbn [length nth] in M. simpl Nat.ltb in M. cbn [orb] in M.
  apply orb_false_elim in M as [Ma Mb].
  apply negb_false_iff, truthy_true in Ma, Mb.
  split; [now exists a, b|]. rewrite Hc, Ho, !strip_idem.
  repeat split; auto; [|now rewrite Hcl, Ho]. intros H. now apply E2, strip_incl.
Qed.

Lemma dialogue_record_invariants_witness :
  parse_line 4 (u "  Narrator :  At noon: silence [pause]  ")
  = Dialogue {| line_number := 5; character := u "Narrator";
                original_text := u "At noon: silence [pause]";
                cleaned_text := u "At noon: silence" |}
  /\ ~ In COLON (u "Narrator").
Proof.
  assert (H : parse_line 4 (u "  Narrator :  At noon: silence [pause]  ")
              = Dialogue {| line_number := 5; character := u "Narrator";
                            original_text := u "At noon: silence [pause]";
                            cleaned_text := u "At noon: silence" |})
    by reflexivity.
  split; [exact H|].
  exact (proj1 (proj2 (proj2 (proj2 (proj2
           (dialogue_record_invariants _ _ _ H)))))).
Defined.

(** ** More on the loop *)

Section MoreProgramFacts.

Context {PS : Type} (P : Platform PS).

(** The calls made for one record. *)
Lemma process_record_calls (r : DialogueRecord) (st : LoopState) (w : World PS) :
  exists evs,
    trace (snd (process_record P r st w)) = trace w ++ evs
    /\ (evs = []
        \/ exists v,
            dict_get CHARACTER_VOICES (character r) = Some v
            /\ cleaned_text r <> []
            /\ client_calls v (cleaned_text r)
                 (artifact_path P (line_processed_count st) (character r)) evs).
Proof.
  unfold process_record.
  destruct (dict_get CHARACTER_VOICES (character r)) as [v|] eqn:Hv.
  2:{ exists []. rewrite app_nil_r. auto. }
  destruct (negb (truthy v)).
  { exists []. rewrite app_nil_r. auto. }
  unfold generate_audio_for_line, bind, ret, call.
  destruct (truthy (cleaned_text r)) eqn:Ht; cbn [negb].
  2:{ exists []. rewrite app_nil_r. auto. }
  apply truthy_true in Ht.
  destruct (from_pretrained P v (ext w)) as [[[]|e1] s1]; cbn [ext trace].
  2:{ eexists. split; [reflexivity|]. right. exists v. repeat split; auto.
      now left. }
  destruct (predict P v (cleaned_text r) s1) as [[audio|e2] s2]; cbn [ext trace].
  2:{ eexists. cbn [snd trace]. rewrite <- app_assoc. split; [reflexivity|].
      right. exists v. repeat split; auto. right. now left. }
  destruct (write_file P _ audio s2) as [[[]|e3] s3]; cbn [snd trace];
    eexists; rewrite <- !app_assoc; (split; [reflexivity|]);
    right; exists v; repeat split; auto; right; right; do 2 eexists; reflexivity.
Qed.

(** The calls made for one line. *)
Lemma loop_body_calls (i : nat) (line : str) (st : LoopState) (w : World PS) :
  exists evs,
    trace (snd (loop_body P i line st w)) = trace w ++ evs
    /\ (evs = []
        \/ nonblank line = true
           /\ exists r v,
               parse_line i line = Dialogue r
               /\ dict_get CHARACTER_VOICES (character r) = Some v
               /\ cleaned_text r <> []
               /\ client_calls v (cleaned_text r)
                    (artifact_path P (line_processed_count st + 1) (character r)) evs).
Proof.
  rewrite loop_body_parse.
  destruct (parse_line i line) as [| entry | r] eqn:Hp.
  - exists []. rewrite app_nil_r. auto.
  - exists []. rewrite app_nil_r. auto.
  - destruct (process_record_calls r (count_line st) w) as (evs & T & [->|H]).
    + exists []. auto.
    + exists evs. split; auto. right.
      split; [apply (parse_line_dialogue i line r Hp)|].
      destruct H as (v & H). exists r, v. split; auto.
Qed.

(** The calls of a run of the loop, line by line: at most one group per
    non-blank line, each the calls of the client for a record. *)
Lemma for_lines_calls (i : nat) (lines : list str) (st : LoopState) (w : World PS) :
  exists groups,
    trace (snd (for_lines P i lines st w)) = trace w ++ concat groups
    /\ length groups <= count_nonblank lines
    /\ Forall (fun evs =>
                 exists line j r v k,
                   In line lines /\ parse_line j line = Dialogue r
                   /\ dict_get CHARACTER_VOICES (character r) = Some v
                   /\ cleaned_text r <> []
                   /\ client_calls v (cleaned_text r)
                        (artifact_path P k (character r)) evs) groups.
Proof.
  revert i st w. induction lines as [|l rest IH]; intros i st w.
  - exists []. simpl. rewrite app_nil_r. auto.
  - rewrite for_lines_cons.
    destruct (loop_body_calls i l st w) as (evs & T & H).
    destruct (IH (S i) (fst (loop_body P i l st w)) (snd (loop_body P i l st w)))
      as (groups & T' & L & F).
    assert (F' : Forall (fun evs =>
                 exists line j r v k,
                   In line (l :: rest) /\ parse_line j line = Dialogue r
                   /\ dict_get CHARACTER_VOICES (character r) = Some v
                   /\ cleaned_text r <> []
                   /\ client_calls v (cleaned_text r)
                        (artifact_path P k (character r)) evs) groups).
    { eapply Forall_impl; [|exact F].
      intros evs0 (line & j & r & v & k & H0 & H1).
      exists line, j, r, v, k. split; [now right|exact H1]. }
    unfold count_nonblank in *. cbn [filter].
    destruct H as [->|(B & r & v & H)].
    + exists groups. rewrite T', T, app_nil_r. repeat split; auto.
      destruct (nonblank l); simpl; lia.
    + exists (evs :: groups). rewrite T', T, <- app_assoc. rewrite B.
      repeat split; auto; [simpl; lia|].
      constructor; auto. exists l, i, r, v, (line_processed_count st + 1).
      split; [now left|exact H].
Qed.

Lemma dict_get_some_value (d : list (str * str)) (k v : str) :
  dict_get d k = Some v -> In v (map snd d).
Proof.
  induction d as [|[k' v'] d IH]; simpl; [discriminate|].
  destruct (str_eqb k k'); [intros H; inversion H; now left|auto].
Qed.

End MoreProgramFacts.

(** X7.  What the provider is asked: every request of a batch is for the
    voice the registry gives some character, and its text is a cleaned
    dialogue of a line of the script, hence not empty, without whitespace
    at either end or runs of whitespace, and free of bracketed spans. *)
Theorem provider_gets_cleaned_text {PS} (P : Platform PS) (content : str) (w : World PS) :
  exists evs,
    trace (snd (after P (splitlines content) w)) = trace w ++ evs
    /\ forall v t,
        In (v, t) (predict_calls evs) ->
        In v (map snd CHARACTER_VOICES)
        /\ t <> []
        /\ (exists line i r, In line (splitlines content)
                             /\ parse_line i line = Dialogue r
                             /\ t = clean (original_text r))
        /\ strip t = t /\ sub_spaces t = t /\ no_span t.
Proof.
  unfold after.
  destruct (for_lines_calls P 0 (splitlines content) initial_state w)
    as (groups & T & _ & F).
  exists (concat groups). split; [exact T|].
  intros v t Hin. unfold predict_calls in Hin.
  apply in_flat_map in Hin as (e & He & Hin).
  apply in_concat in He as (evs & Hg & He).
  rewrite Forall_forall in F.
  destruct (F evs Hg) as (line & j & r & v' & k & Hl & Hp & Hv & Ht & C).
  assert (E : v = v' /\ t = cleaned_text r).
  { destruct e; simpl in Hin; try tauto. destruct Hin as [Hin|[]].
    inversion Hin; subst.
    destruct C as [-> | [-> | (d & ok & ->)]]; simpl in He;
      intuition (try discriminate); match goal with
      | H : Predict _ _ = Predict _ _ |- _ => inversion H; auto
      end. }
  destruct E as [-> ->].
  pose proof (parse_line_no_LF content j line r Hl Hp) as NL.
  destruct (parse_line_dialogue j line r Hp) as (_ & _ & _ & _ & Hc & _).
  split; [now apply (dict_get_some_value _ _ _ Hv)|]. split; [exact Ht|].
  split; [now exists line, j, r|]. rewrite Hc.
  destruct (clean_normal_form (original_text r)) as (S1 & S2 & _).
  repeat split; auto. now apply clean_no_span.
Qed.

Lemma provider_gets_cleaned_text_witness :
  let P := Demo.steady Demo.env_ok in
  exists evs,
    trace (snd (after P (splitlines (u "Radha:  [softly]  come   here ")) 
                  {| ext := []; trace := [] |})) = evs
    /\ In (u "text-to-speech-en-in-wavenet-d", u "come here") (predict_calls evs)
    /\ no_span (u "come here").
Proof.
  cbv zeta.
  destruct (provider_gets_cleaned_text (Demo.steady Demo.env_ok)
              (u "Radha:  [softly]  come   here ") {| ext := []; trace := [] |})
    as (evs & T & H).
  exists evs. split; [exact T|].
  assert (K : In (u "text-to-speech-en-in-wavenet-d", u "come here")
                 (predict_calls evs)).
  { vm_compute in T. subst evs. now left. }
  split; [exact K|]. apply (H _ _ K).
Defined.

(** X15.  No retries: a non-blank line makes no call, or the load of a
    model alone, or the load then one request, or the load, one request
    and then one write, in that order and for one voice, text and path; a
    blank line makes no call.  The calls of a batch are such groups one
    after the other, at most one for each non-blank line; so there are no
    more loads than non-blank lines, no more requests than loads and no
    more writes than requests. *)
Theorem at_most_one_request_per_line {PS} (P : Platform PS) :
  (forall i line st w,
      exists evs,
        trace (snd (loop_body P i line st w)) = trace w ++ evs
        /\ (evs = []
            \/ nonblank line = true
               /\ exists v t p, client_calls v t p evs)
        /\ length (writes evs) <= length (predict_calls evs)
        /\ length (predict_calls evs) <= length (model_loads evs)
        /\ length (model_loads evs) <= (if nonblank line then 1 else 0))
  /\ (forall lines w,
        exists groups,
          trace (snd (after P lines w)) = trace w ++ concat groups
          /\ length groups <= count_nonblank lines
          /\ Forall (fun evs => exists v t p, client_calls v t p evs) groups
          /\ length (writes (concat groups)) <= length (predict_calls (concat groups))
          /\ length (predict_calls (concat groups))
             <= length (model_loads (concat groups))
          /\ length (model_loads (concat groups)) <= count_nonblank lines).
Proof.
  assert (C : forall v t p evs, client_calls v t p evs ->
                length (writes evs) <= length (predict_calls evs)
                /\ length (predict_calls evs) <= length (model_loads evs)
                /\ length (model_loads evs) = 1).
  { intros v t p evs [-> | [-> | (d & ok & ->)]]; simpl; lia. }
  split.
  - intros i line st w.
    destruct (loop_body_calls P i line st w) as (evs & T & [->|(B & r & v & H)]).
    + exists []. simpl. repeat split; auto. destruct (nonblank line); lia.
    + exists evs. split; [exact T|]. rewrite B.
      destruct H as (_ & _ & _ & H). split; [right; split; eauto|].
      apply C in H. lia.
  - intros lines w. unfold after.
    destruct (for_lines_calls P 0 lines initial_state w) as (groups & T & L & F).
    exists groups. split; [exact T|]. split; [exact L|]. split.
    + eapply Forall_impl; [|exact F].
      intros evs (line & j & r & v & k & _ & _ & _ & _ & H). eauto.
    + revert L. generalize (count_nonblank lines). clear T.
      induction F as [|evs groups H F IH]; intros n L; simpl.
      * lia.
      * destruct H as (line & j & r & v & k & _ & _ & _ & _ & H). apply C in H.
        unfold writes, predict_calls, model_loads in *.
        rewrite !flat_map_app, !length_app.
        simpl in L. specialize (IH (n - 1) ltac:(lia)). lia.
Qed.

(** ** Whole batches *)

Section BatchFacts.

Context {PS : Type} (P : Platform PS).

Lemma for_lines_blank (i : nat) (lines : list str) (st : LoopState) (w : World PS) :
  (forall l, In l lines -> nonblank l = false) ->
  for_lines P i lines st w = (st, w).
Proof.
  revert i. induction lines as [|l rest IH]; intros i H; [reflexivity|].
  rewrite for_lines_cons, loop_body_parse, parse_line_blank by (apply H; now left).
  apply IH. intros l' Hl. apply H. now right.
Qed.

Lemma truthy_app_r (a b : str) : truthy b = true -> truthy (a ++ b) = true.
Proof. destruct a; simpl; auto. Qed.

(** The rendering is empty exactly as long as nothing was generated. *)
Lemma for_lines_html (i : nat) (lines : list str) (st : LoopState) (w : World PS) :
  truthy (output_html st) = (0 <? audio_files_generated_count st) ->
  let st' := fst (for_lines P i lines st w) in
  truthy (output_html st') = (0 <? audio_files_generated_count st').
Proof.
  revert i st w. induction lines as [|l rest IH]; intros i st w H; [exact H|].
  cbv zeta. rewrite for_lines_cons. apply IH.
  destruct (loop_body_cases P i l st w)
    as (st' & w' & evs & -> & _ & _ & [(_ & -> & _)|(_ & _ & H')]); cbn [fst].
  - exact H.
  - destruct H' as [(e & -> & _)|(r & _ & -> & _)]; cbn [add_error add_audio
      count_line output_html audio_files_generated_count].
    + exact H.
    + rewrite truthy_app_r by reflexivity.
      symmetry. apply Nat.ltb_lt. lia.
Qed.

(** The entry that the processing of a record may leave carries the
    number of the record. *)
Lemma process_record_entry (r : DialogueRecord) (st : LoopState) (w : World PS) :
  let st' := fst (process_record P r st w) in
  error_summary st' = error_summary st
  \/ (dict_get CHARACTER_VOICES (character r) = None
      /\ error_summary st'
         = error_summary st ++ [not_configured_entry (line_number r) (character r)])
  \/ (exists v m,
        dict_get CHARACTER_VOICES (character r) = Some v
        /\ error_summary st'
           = error_summary st ++ [line_error_entry (line_number r) (character r) m]).
Proof.
  cbv zeta. unfold process_record.
  destruct (dict_get CHARACTER_VOICES (character r)) as [v|] eqn:Hv.
  2:{ right. left. auto. }
  rewrite (registry_voice_truthy _ _ Hv). cbn [negb]. unfold bind, ret.
  destruct (generate_audio_for_line P _ _ _ _ w) as [[[|] m] w']; cbn [fst].
  - now left.
  - right. right. now exists v, m.
Qed.

Lemma loop_body_entry (i : nat) (line : str) (st : LoopState) (w : World PS) :
  let st' := fst (loop_body P i line st w) in
  error_summary st' = error_summary st
  \/ exists e, error_summary st' = error_summary st ++ [e]
               /\ tagged (i + 1) e /\ nonblank line = true.
Proof.
  cbv zeta. rewrite loop_body_parse.
  destruct (nonblank line) eqn:B.
  2:{ rewrite parse_line_blank by assumption. now left. }
  destruct (parse_line_nonblank i line B) as [E|[r E]]; rewrite E.
  - right. eexists. split; [reflexivity|]. split; [|reflexivity].
    exists SP. eexists. split; [discriminate|reflexivity].
  - destruct (parse_line_dialogue i line r E) as (_ & Hn & _).
    destruct (process_record_entry r (count_line st) w)
      as [H|[(_ & H)|(v & m & _ & H)]]; cbv zeta in H; rewrite H.
    + now left.
    + right. eexists. split; [reflexivity|]. split; [|reflexivity]. rewrite Hn.
      exists COLON. eexists. split; [discriminate|reflexivity].
    + right. eexists. split; [reflexivity|]. split; [|reflexivity]. rewrite Hn.
      exists SP. eexists. split; [discriminate|reflexivity].
Qed.

Lemma increasing_weaken (lo lo' : nat) (ks : list nat) :
  lo <= lo' -> increasing lo' ks -> increasing lo ks.
Proof. destruct ks as [|k r]; simpl; auto. intros H [H1 H2]. split; auto. lia. Qed.

Lemma line_leaves_later (i : nat) (l : str) (rest : list str)
    (st : LoopState) (w : World PS) (k : nat) (e : str) :
  line_leaves P (S i) (fst (loop_body P i l st w)) (snd (loop_body P i l st w))
    rest k e
  <-> (exists x pre line post,
         l :: rest = (x :: pre) ++ line :: post
         /\ k = i + length (x :: pre) + 1
         /\ nonblank line = true
         /\ error_summary
              (fst (loop_body P (i + length (x :: pre)) line
                      (fst (for_lines P i (x :: pre) st w))
                      (snd (for_lines P i (x :: pre) st w))))
            = error_summary (fst (for_lines P i (x :: pre) st w)) ++ [e]).
Proof.
  split.
  - intros (pre & line & post & -> & -> & B & E).
    exists l, pre, line, post. rewrite for_lines_cons.
    replace (i + length (l :: pre)) with (S i + length pre) by (simpl; lia).
    auto.
  - intros (x & pre & line & post & E0 & -> & B & E).
    injection E0 as <- ->. exists pre, line, post.
    rewrite for_lines_cons in E.
    replace (i + length (l :: pre)) with (S i + length pre) in * by (simpl; lia).
    auto.
Qed.

(** The entries of a run of the loop, each with the number of the line
    that leaves it. *)
Lemma for_lines_tags (i : nat) (lines : list str) (st : LoopState) (w : World PS) :
  exists tags,
    error_summary (fst (for_lines P i lines st w))
    = error_summary st ++ map snd tags
    /\ increasing i (map fst tags)
    /\ (forall k e, In (k, e) tags <-> line_leaves P i st w lines k e)
    /\ (forall k e, In (k, e) tags -> tagged k e /\ k <= i + length lines).
Proof.
  revert i st w. induction lines as [|l rest IH]; intros i st w.
  - exists []. simpl. rewrite app_nil_r. repeat split; auto; try tauto.
    intros (pre & line & post & E & _). now destruct pre.
  - rewrite for_lines_cons.
    destruct (IH (S i) (fst (loop_body P i l st w)) (snd (loop_body P i l st w)))
      as (tags & E & I & C & T).
    assert (T' : forall k e, In (k, e) tags ->
                   tagged k e /\ k <= i + length (l :: rest)).
    { intros k e H. destruct (T k e H). split; auto. simpl. lia. }
    assert (Later : forall k e,
               line_leaves P i st w (l :: rest) k e
               <-> (k = i + 1 /\ nonblank l = true
                    /\ error_summary (fst (loop_body P i l st w))
                       = error_summary st ++ [e])
                   \/ In (k, e) tags).
    { intros k e. rewrite C, line_leaves_later. split.
      - intros (pre & line & post & E0 & Hk & B & E1). destruct pre as [|x pre].
        + injection E0 as <- <-. left. cbn [length for_lines ret fst snd] in *.
          rewrite Nat.add_0_r in *. auto.
        + right. exists x, pre, line, post. auto.
      - intros [(-> & B & E1)|(x & pre & line & post & H)].
        + exists [], l, rest. cbn [length for_lines ret fst snd app].
          rewrite Nat.add_0_r. auto.
        + destruct H as (E0 & H). exists (x :: pre), line, post. auto. }
    destruct (loop_body_entry i l st w) as [H|(e0 & H & Ht & B)]; cbv zeta in H.
    + exists tags. rewrite E, H. split; [reflexivity|].
      split; [apply (increasing_weaken i (S i)); auto|]. split; [|exact T'].
      intros k e. rewrite Later. split; [tauto|].
      intros [(_ & _ & E1)|]; auto. exfalso. rewrite H in E1.
      apply (f_equal (@length str)) in E1. rewrite length_app in E1.
      simpl in E1. lia.
    + exists ((i + 1, e0) :: tags). rewrite E, H, <- app_assoc.
      split; [reflexivity|]. split; [|split].
      * cbn [map fst increasing]. split; [lia|]. now rewrite Nat.add_1_r.
      * intros k e. rewrite Later. cbn [In]. split.
        -- intros [E1|]; auto. injection E1 as <- <-. auto.
        -- intros [(-> & _ & E1)|]; auto. left. rewrite H in E1.
           apply app_inv_head in E1. now injection E1 as ->.
      * intros k e [E1|H1]; [|now apply T'].
        injection E1 as <- <-. split; auto. simpl. lia.
Qed.

Lemma speakable_parse (i : nat) (line : str) :
  speakable line = true ->
  exists r v, parse_line i line = Dialogue r
              /\ dict_get CHARACTER_VOICES (character r) = Some v
              /\ cleaned_text r <> [].
Proof.
  unfold speakable, parse_line.
  destruct (negb (truthy (strip line))); [discriminate|].
  destruct (malformed _); [discriminate|]. cbn [character cleaned_text].
  destruct (dict_get CHARACTER_VOICES _) as [v|] eqn:Hv; [|discriminate].
  intros H. eexists _, v. split; [reflexivity|]. cbn [character cleaned_text].
  split; [exact Hv|]. now apply truthy_true.
Qed.

Lemma for_lines_speakable (i : nat) (lines : list str) (st : LoopState) (w : World PS) :
  reliable P ->
  (forall l, In l lines -> nonblank l = true -> speakable l = true) ->
  let st' := fst (for_lines P i lines st w) in
  error_summary st' = error_summary st
  /\ audio_files_generated_count st'
     = audio_files_generated_count st + count_nonblank lines.
Proof.
  intros R. revert i st w. induction lines as [|l rest IH]; intros i st w H.
  - simpl. unfold count_nonblank. simpl. auto.
  - cbv zeta. rewrite for_lines_cons.
    assert (H' : forall l0, In l0 rest -> nonblank l0 = true -> speakable l0 = true)
      by (intros l0 H0; apply H; now right).
    destruct (IH (S i) (fst (loop_body P i l st w)) (snd (loop_body P i l st w)) H')
      as (E1 & E2).
    rewrite E1, E2, loop_body_parse. unfold count_nonblank. cbn [filter].
    destruct (nonblank l) eqn:B.
    + destruct (speakable_parse i l (H l (or_introl eq_refl) B))
        as (r & v & Hp & Hv & Ht).
      rewrite Hp.
      destruct (process_record_reliable P r (count_line st) w v R Hv Ht)
        as (w' & evs & E & _). rewrite E. simpl. split; auto. lia.
    + rewrite parse_line_blank by assumption. simpl. split; auto.
Qed.

End BatchFacts.

(** X1.  A script with no line or with blank lines only is no error: the
    batch reports zero lines processed and zero files generated, shows
    the placeholder in place of the rendering, hides the clear button,
    and calls nothing after the initialisation. *)
Theorem blank_script_reports_nothing {PS} (P : Platform PS)
    (f : ScriptFile) (content : str) (w : World PS) :
  endswith (str_lower P (name f)) (u ".txt") = true ->
  fst (initialize_vertex_ai P w) = Ok tt ->
  read_decoded f = Ok content ->
  (forall l, In l (splitlines content) -> nonblank l = false) ->
  generate_voice_over P (Some f) w
  = ((u "Processed 0 lines. Generated 0 files.",
      u "No audio generated. Check status for errors.", false),
     snd (initialize_vertex_ai P w)).
Proof.
  intros H I R B. rewrite (generate_voice_over_batch P f content w H I R).
  unfold after. now rewrite for_lines_blank.
Qed.

Lemma blank_script_reports_nothing_witness :
  let P := Demo.steady Demo.env_ok in
  fst (generate_voice_over P
         (Some {| name := u "empty.txt"; read_decoded := Ok [LF; SP; SP; CR; LF; 0x09%N] |})
         {| ext := []; trace := [] |})
  = (u "Processed 0 lines. Generated 0 files.",
     u "No audio generated. Check status for errors.", false).
Proof.
  cbv zeta.
  rewrite (blank_script_reports_nothing (Demo.steady Demo.env_ok)
             {| name := u "empty.txt"; read_decoded := Ok [LF; SP; SP; CR; LF; 0x09%N] |}
             [LF; SP; SP; CR; LF; 0x09%N] {| ext := []; trace := [] |}
             eq_refl eq_refl eq_refl).
  - reflexivity.
  - intros l Hl. vm_compute in Hl.
    repeat (destruct Hl as [<-|Hl]; [reflexivity|]). destruct Hl.
Defined.

(** X2.  When the uploaded file cannot be read or decoded, the batch
    stops with the message of that failure as its only output; the
    provider has been initialised by then, and no line is processed. *)
Theorem unreadable_script_stops_the_batch {PS} (P : Platform PS)
    (f : ScriptFile) (e : str) (w : World PS) :
  endswith (str_lower P (name f)) (u ".txt") = true ->
  fst (initialize_vertex_ai P w) = Ok tt ->
  read_decoded f = Raised e ->
  generate_voice_over P (Some f) w
  = ((u "Error reading script file: " ++ e, [], false),
     snd (initialize_vertex_ai P w))
  /\ exists evs,
      trace (snd (generate_voice_over P (Some f) w)) = trace w ++ evs
      /\ per_line_calls evs = [].
Proof.
  intros H I R.
  assert (E : generate_voice_over P (Some f) w
              = ((u "Error reading script file: " ++ e, [], false),
                 snd (initialize_vertex_ai P w))).
  { unfold generate_voice_over, bind, ret. rewrite H, R. cbn [negb]. cbv beta iota.
    now destruct (initialize_vertex_ai P w) as [[[]|e'] w1]. }
  split; [exact E|]. rewrite E. cbn [snd].
  destruct (initialize_vertex_ai_calls P w) as (evs & T & C & _).
  now exists evs.
Qed.

Lemma unreadable_script_stops_the_batch_witness :
  let P := Demo.steady Demo.env_ok in
  fst (generate_voice_over P
         (Some {| name := u "script.txt";
                  read_decoded := Raised (u "'utf-8' codec can't decode byte 0xff") |})
         {| ext := []; trace := [] |})
  = (u "Error reading script file: 'utf-8' codec can't decode byte 0xff", [], false).
Proof.
  cbv zeta.
  rewrite (proj1 (unreadable_script_stops_the_batch (Demo.steady Demo.env_ok)
             {| name := u "script.txt";
                read_decoded := Raised (u "'utf-8' codec can't decode byte 0xff") |}
             (u "'utf-8' codec can't decode byte 0xff") {| ext := []; trace := [] |}
             eq_refl eq_refl eq_refl)).
  reflexivity.
Defined.

(** X3.  The rendering follows the count: after any run of the loop the
    accumulated rendering is empty exactly when no file was generated;
    the report then shows the placeholder and hides the clear button, and
    otherwise shows the rendering and the button. *)
Theorem rendering_follows_generated_count {PS} (P : Platform PS)
    (lines : list str) (w : World PS) :
  let st := fst (after P lines w) in
  (audio_files_generated_count st = 0 ->
   output_html st = []
   /\ report st = (status_message st,
                   u "No audio generated. Check status for errors.", false))
  /\ (0 < audio_files_generated_count st ->
      output_html st <> []
      /\ report st = (status_message st, output_html st, true)).
Proof.
  cbv zeta. unfold after.
  pose proof (for_lines_html P 0 lines initial_state w eq_refl) as H.
  cbv zeta in H. unfold report. rewrite H. split.
  - intros E. rewrite E in *. simpl. split; auto. now apply truthy_false.
  - intros L. apply Nat.ltb_lt in L. rewrite L in *. split; auto.
    now apply truthy_true.
Qed.

Lemma rendering_follows_generated_count_witness :
  let P := Demo.platform Demo.env_ok (u "text-to-speech-en-in-wavenet-d") in
  let st := fst (after P [u "Radha: hi"; u "oops"] (Demo.world (Some []))) in
  audio_files_generated_count st = 0
  /\ report st
     = (u "Processed 2 lines. Generated 0 files.<br><br><strong>Errors:</strong><br>Line 1 (Radha): API Error for 'Radha': 429 quota exceeded<br>Line 2 (Format Error): 'oops'",
        u "No audio generated. Check status for errors.", false).
Proof.
  cbv zeta.
  assert (H : audio_files_generated_count
                (fst (after (Demo.platform Demo.env_ok (u "text-to-speech-en-in-wavenet-d"))
                        [u "Radha: hi"; u "oops"] (Demo.world (Some [])))) = 0)
    by reflexivity.
  split; [exact H|].
  destruct (proj1 (rendering_follows_generated_count
                     (Demo.platform Demo.env_ok (u "text-to-speech-en-in-wavenet-d"))
                     [u "Radha: hi"; u "oops"] (Demo.world (Some []))) H) as (_ & R).
  rewrite R. reflexivity.
Defined.

(** X4.  The error entries of a batch are in script order, each tagged
    with the number of the line it comes from: the list of entries is
    that of the non-blank lines whose turn of the loop leaves an entry,
    one entry for each such line and none besides, in the order of the
    lines; and the entry that line [k] (from 1, blank lines counted)
    leaves begins with [Line k], the number ending there. *)
Theorem errors_are_tagged_in_script_order {PS} (P : Platform PS)
    (lines : list str) (w : World PS) :
  exists tags,
    error_summary (fst (after P lines w)) = map snd tags
    /\ increasing 0 (map fst tags)
    /\ (forall k e, In (k, e) tags <-> line_leaves P 0 initial_state w lines k e)
    /\ (forall k e, In (k, e) tags -> tagged k e /\ 1 <= k <= length lines).
Proof.
  unfold after.
  destruct (for_lines_tags P 0 lines initial_state w) as (tags & E & I & C & T).
  exists tags. split; [exact E|]. split; [exact I|]. split; [exact C|].
  intros k e H. destruct (T k e H) as (Ht & Hk). split; [exact Ht|].
  apply C in H. destruct H as (pre & line & post & _ & -> & _). simpl in *. lia.
Qed.

Lemma errors_are_tagged_in_script_order_witness :
  let P := Demo.steady Demo.env_ok in
  let lines := [u "Krishna: hi"; []; u "oops"; u "Zed: hello"] in
  let w := {| ext := []; trace := [] |} in
  line_leaves P 0 initial_state w lines 3 (u "Line 3 (Format Error): 'oops'")
  /\ tagged 3 (u "Line 3 (Format Error): 'oops'")
  /\ exists tags,
      error_summary (fst (after P lines w)) = map snd tags
      /\ In (3, u "Line 3 (Format Error): 'oops'") tags.
Proof.
  cbv zeta.
  assert (L : line_leaves (Demo.steady Demo.env_ok) 0 initial_state
                {| ext := []; trace := [] |}
                [u "Krishna: hi"; []; u "oops"; u "Zed: hello"] 3
                (u "Line 3 (Format Error): 'oops'")).
  { exists [u "Krishna: hi"; []], (u "oops"), [u "Zed: hello"].
    repeat split. }
  destruct (errors_are_tagged_in_script_order (Demo.steady Demo.env_ok)
              [u "Krishna: hi"; []; u "oops"; u "Zed: hello"]
              {| ext := []; trace := [] |}) as (tags & E & _ & C & T).
  pose proof (proj2 (C _ _) L) as K.
  split; [exact L|]. split; [exact (proj1 (T _ _ K))|].
  exists tags. split; [exact E|exact K].
Defined.

(** X12.  On a platform where no call of the client raises, a script
    whose non-blank lines all parse, name configured characters and have
    text to speak gives no error: as many files are generated as lines
    are processed, and the status is the two counts alone. *)
Theorem speakable_script_has_no_errors {PS} (P : Platform PS)
    (lines : list str) (w : World PS) :
  reliable P ->
  (forall l, In l lines -> nonblank l = true -> speakable l = true) ->
  let st := fst (after P lines w) in
  error_summary st = []
  /\ audio_files_generated_count st = count_nonblank lines
  /\ line_processed_count st = count_nonblank lines
  /\ status_message st
     = u "Processed " ++ str_of_nat (count_nonblank lines)
       ++ u " lines. Generated " ++ str_of_nat (count_nonblank lines) ++ u " files.".
Proof.
  intros R H. cbv zeta. unfold after.
  destruct (for_lines_speakable P 0 lines initial_state w R H) as (E1 & E2).
  pose proof (for_lines_count P 0 lines initial_state w) as E3.
  simpl in E1, E2, E3. repeat split; auto.
  unfold status_message. now rewrite E1, E2, E3.
Qed.

Lemma speakable_script_has_no_errors_witness :
  let P := Demo.steady Demo.env_ok in
  let lines := [u "Krishna: Hello [softly] there"; []; u "  Radha :hi"] in
  reliable P
  /\ status_message (fst (after P lines {| ext := []; trace := [] |}))
     = u "Processed 2 lines. Generated 2 files.".
Proof.
  cbv zeta.
  assert (R : reliable (Demo.steady Demo.env_ok)) by (intros s; repeat split).
  split; [exact R|].
  refine (proj2 (proj2 (proj2
    (speakable_script_has_no_errors (Demo.steady Demo.env_ok)
       [u "Krishna: Hello [softly] there"; []; u "  Radha :hi"]
       {| ext := []; trace := [] |} R _)))).
  intros l [<-|[<-|[<-|[]]]] B; try reflexivity. discriminate B.
Defined.

(** ** One line, the client and the files *)

Section ClientFacts.

Context {PS : Type} (P : Platform PS).

(** The loop body on a record whose model loads and whose request is
    answered: what remains is the outcome of the write. *)
Lemma loop_body_answered
    (i : nat) (raw : str) (r : DialogueRecord) (v : str) (audio : bytes)
    (st : LoopState) (w : World PS) (s1 s2 s3 : PS) (f : result unit) :
  parse_line i raw = Dialogue r ->
  dict_get CHARACTER_VOICES (character r) = Some v ->
  cleaned_text r <> [] ->
  from_pretrained P v (ext w) = (Ok tt, s1) ->
  predict P v (cleaned_text r) s1 = (Ok audio, s2) ->
  write_file P (artifact_path P (line_processed_count st + 1) (character r)) audio s2
  = (f, s3) ->
  loop_body P i raw st w
  = (match f with
     | Ok _ =>
         add_audio (count_line st)
           (html_entry (character r) (original_text r)
              (artifact_path P (line_processed_count st + 1) (character r)))
     | Raised e =>
         add_error (count_line st)
           (line_error_entry (i + 1) (character r)
              (api_error_message (character r) e))
     end,
     {| ext := s3;
        trace := trace w
                 ++ [FromPretrained v; Predict v (cleaned_text r);
                     WriteFile (artifact_path P (line_processed_count st + 1)
                                  (character r)) audio (is_ok f)] |}).
Proof.
  intros Hp Hv Ht H1 H2 H3.
  destruct (parse_line_dialogue i raw r Hp) as (_ & Hn & _).
  rewrite loop_body_parse, Hp. unfold process_record. rewrite Hv.
  rewrite (registry_voice_truthy _ _ Hv). cbn [negb].
  unfold generate_audio_for_line, bind, ret, call.
  apply truthy_true in Ht. rewrite Ht. cbn [negb].
  rewrite H1. cbn [ext trace]. rewrite H2. cbn [ext trace].
  cbn [count_line line_processed_count]. rewrite H3, Hn, <- !app_assoc.
  now destruct f as [[]|e].
Qed.

Lemma writes_app (a b : list Event) : writes (a ++ b) = writes a ++ writes b.
Proof. apply flat_map_app. Qed.

Lemma artifacts_in_writes (evs : list Event) (p : str) :
  In p (artifacts evs) -> In p (writes evs).
Proof.
  unfold artifacts, writes. rewrite !in_flat_map. intros (e & He & Hp).
  exists e. split; auto. destruct e as [| | | |p' d [|]|]; simpl in *; tauto.
Qed.

(** The paths a run of the loop writes to carry the counts of the run,
    each once. *)
Lemma for_lines_writes (i : nat) (lines : list str) (st : LoopState) (w : World PS) :
  exists evs,
    trace (snd (for_lines P i lines st w)) = trace w ++ evs
    /\ NoDup (writes evs)
    /\ NoDup (artifacts evs)
    /\ forall p, In p (writes evs) ->
         exists k n,
           line_processed_count st < k
           /\ k <= line_processed_count (fst (for_lines P i lines st w))
           /\ p = artifact_path P k n.
Proof.
  revert i st w. induction lines as [|l rest IH]; intros i st w.
  - exists []. simpl. rewrite app_nil_r. repeat split; try constructor.
    intros p [].
  - rewrite for_lines_cons.
    destruct (IH (S i) (fst (loop_body P i l st w)) (snd (loop_body P i l st w)))
      as (evs' & T' & N' & A' & B').
    pose proof (loop_body_count P i l st w) as C.
    pose proof (for_lines_count P (S i) rest (fst (loop_body P i l st w))
                  (snd (loop_body P i l st w))) as C'.
    destruct (loop_body_calls P i l st w) as (evs & T & [->|(B & r & v & H)]).
    + exists evs'. rewrite T', T, app_nil_r. repeat split; auto.
      intros p Hp. destruct (B' p Hp) as (k & n & K1 & K2 & K3).
      exists k, n. repeat split; auto. destruct (nonblank l); lia.
    + rewrite B in C. destruct H as (_ & _ & _ & H).
      assert (W : (writes evs = [] /\ artifacts evs = [])
                  \/ (writes evs = [artifact_path P (line_processed_count st + 1)
                                     (character r)]
                      /\ incl (artifacts evs) (writes evs)
                      /\ NoDup (artifacts evs))).
      { destruct H as [-> | [-> | (d & ok & ->)]]; simpl; auto.
        right. split; auto. destruct ok; simpl.
        - split; [apply incl_refl|]. repeat constructor. intros [].
        - split; [intros x []|constructor]. }
      exists (evs ++ evs'). rewrite T', T, app_assoc, writes_app, artifacts_app.
      split; [reflexivity|].
      assert (D : forall p, In p (writes evs) -> ~ In p (writes evs')).
      { intros p Hp Hp'. destruct (B' p Hp') as (k & n & K1 & _ & K3).
        destruct W as [[W _]|[W _]]; rewrite W in Hp; [destruct Hp|].
        destruct Hp as [<-|[]]. apply artifact_path_index in K3 as [K3 _]. lia. }
      split; [|split].
      * apply NoDup_app; auto.
        destruct W as [[-> _]|[-> _]]; repeat constructor. intros [].
      * apply NoDup_app; auto.
        -- destruct W as [[_ ->]|(_ & _ & W)]; [constructor|exact W].
        -- intros p Hp Hp'. apply (D p); [|now apply artifacts_in_writes].
           now apply artifacts_in_writes.
      * intros p [Hp|Hp]%in_app_or.
        -- destruct W as [[W _]|[W _]]; rewrite W in Hp; [destruct Hp|].
           destruct Hp as [<-|[]].
           exists (line_processed_count st + 1), (character r).
           repeat split; lia.
        -- destruct (B' p Hp) as (k & n & K1 & K2 & K3).
           exists k, n. repeat split; auto. lia.
Qed.

End ClientFacts.

(** X5.  When the audio is returned but cannot be written, the line is
    answered like a failure of the provider: one entry headed
    [API Error] with the message of the write, no file counted, the
    rendering unchanged, although the provider was asked. *)
Theorem write_failure_is_recoverable {PS} (P : Platform PS)
    (i : nat) (raw : str) (r : DialogueRecord) (v e : str) (audio : bytes)
    (st : LoopState) (w : World PS) (s1 s2 s3 : PS) :
  parse_line i raw = Dialogue r ->
  dict_get CHARACTER_VOICES (character r) = Some v ->
  cleaned_text r <> [] ->
  from_pretrained P v (ext w) = (Ok tt, s1) ->
  predict P v (cleaned_text r) s1 = (Ok audio, s2) ->
  write_file P (artifact_path P (line_processed_count st + 1) (character r)) audio s2
  = (Raised e, s3) ->
  let s := loop_body P i raw st w in
  error_summary (fst s)
  = error_summary st
    ++ [u "Line " ++ str_of_nat (i + 1) ++ u " (" ++ character r
        ++ u "): API Error for '" ++ character r ++ u "': " ++ e]
  /\ audio_files_generated_count (fst s) = audio_files_generated_count st
  /\ output_html (fst s) = output_html st
  /\ trace (snd s)
     = trace w ++ [FromPretrained v; Predict v (cleaned_text r);
                   WriteFile (artifact_path P (line_processed_count st + 1)
                                (character r)) audio false].
Proof.
  intros Hp Hv Ht H1 H2 H3. cbv zeta.
  rewrite (loop_body_answered P i raw r v audio st w s1 s2 s3 _ Hp Hv Ht H1 H2 H3).
  repeat split.
Qed.

Lemma write_failure_is_recoverable_witness :
  let P := Demo.platform Demo.env_ok (u "none") in
  let s := loop_body P 0 (u "Krishna: hello") initial_state (Demo.world None) in
  error_summary (fst s)
  = [u "Line 1 (Krishna): API Error for 'Krishna': No such file or directory"]
  /\ audio_files_generated_count (fst s) = 0.
Proof.
  cbv zeta.
  destruct (write_failure_is_recoverable (Demo.platform Demo.env_ok (u "none"))
              0 (u "Krishna: hello")
              {| line_number := 1; character := u "Krishna";
                 original_text := u "hello"; cleaned_text := u "hello" |}
              (u "text-to-speech-en-in-standard-c") (u "No such file or directory")
              (u "hello" ++ [0%N]) initial_state (Demo.world None) None None None
              eq_refl eq_refl ltac:(discriminate) eq_refl eq_refl eq_refl)
    as (H1 & H2 & _).
  split; [exact H1|exact H2].
Defined.

(** X6.  When the model loads, the request is answered and the file is
    written, the provider was asked for the cleaned text, the file holds
    the audio it returned, under the name of the line, and the rendering
    gains the entry of the line, which shows the dialogue as written,
    director notes included; the count of files grows by one and no error
    is recorded. *)
Theorem synthesised_line_is_rendered {PS} (P : Platform PS)
    (i : nat) (raw : str) (r : DialogueRecord) (v : str) (audio : bytes)
    (st : LoopState) (w : World PS) (s1 s2 s3 : PS) :
  parse_line i raw = Dialogue r ->
  dict_get CHARACTER_VOICES (character r) = Some v ->
  cleaned_text r <> [] ->
  from_pretrained P v (ext w) = (Ok tt, s1) ->
  predict P v (cleaned_text r) s1 = (Ok audio, s2) ->
  write_file P (artifact_path P (line_processed_count st + 1) (character r)) audio s2
  = (Ok tt, s3) ->
  let s := loop_body P i raw st w in
  let path := artifact_path P (line_processed_count st + 1) (character r) in
  trace (snd s)
  = trace w ++ [FromPretrained v; Predict v (clean (original_text r));
                WriteFile path audio true]
  /\ output_html (fst s)
     = output_html st
       ++ u "<p><strong>" ++ character r ++ u ":</strong> " ++ original_text r
       ++ u "</p><audio controls src='file=" ++ path ++ u "'></audio><br><br>"
  /\ audio_files_generated_count (fst s) = audio_files_generated_count st + 1
  /\ error_summary (fst s) = error_summary st.
Proof.
  intros Hp Hv Ht H1 H2 H3. cbv zeta.
  rewrite (loop_body_answered P i raw r v audio st w s1 s2 s3 _ Hp Hv Ht H1 H2 H3).
  destruct (parse_line_dialogue i raw r Hp) as (_ & _ & _ & _ & <- & _).
  repeat split.
Qed.

Lemma synthesised_line_is_rendered_witness :
  let P := Demo.steady Demo.env_ok in
  let s := loop_body P 0 (u "Radha: [softly] hi") initial_state
             {| ext := []; trace := [] |} in
  trace (snd s)
  = [FromPretrained (u "text-to-speech-en-in-wavenet-d");
     Predict (u "text-to-speech-en-in-wavenet-d") (u "hi");
     WriteFile (u "voice_overs/001_Radha.mp3") (u "hi" ++ [0%N]) true]
  /\ output_html (fst s)
     = u "<p><strong>Radha:</strong> [softly] hi</p><audio controls src='file=voice_overs/001_Radha.mp3'></audio><br><br>".
Proof.
  cbv zeta.
  destruct (synthesised_line_is_rendered (Demo.steady Demo.env_ok)
              0 (u "Radha: [softly] hi")
              {| line_number := 1; character := u "Radha";
                 original_text := u "[softly] hi"; cleaned_text := u "hi" |}
              (u "text-to-speech-en-in-wavenet-d") (u "hi" ++ [0%N])
              initial_state {| ext := []; trace := [] |} [] []
              [u "voice_overs/001_Radha.mp3"]
              eq_refl eq_refl ltac:(discriminate) eq_refl eq_refl eq_refl)
    as (H1 & H2 & _).
  split; [exact H1|exact H2].
Defined.

(** X17.  Within a batch no path is written twice: the writes attempted,
    and so the artifacts, bear pairwise distinct names, each with the
    processed-line count of its line as index; no artifact of a batch
    overwrites another of the same batch. *)
Theorem artifact_paths_are_distinct {PS} (P : Platform PS)
    (lines : list str) (w : World PS) :
  exists evs,
    trace (snd (after P lines w)) = trace w ++ evs
    /\ NoDup (writes evs)
    /\ NoDup (artifacts evs)
    /\ forall p, In p (writes evs) ->
         exists k n, 1 <= k <= count_nonblank lines
                     /\ p = OUTPUT_DIR P ++ u "/" ++ format_03d k ++ u "_" ++ n
                            ++ u ".mp3".
Proof.
  unfold after.
  destruct (for_lines_writes P 0 lines initial_state w) as (evs & T & N & A & B).
  exists evs. repeat split; auto.
  intros p Hp. destruct (B p Hp) as (k & n & K1 & K2 & ->).
  rewrite for_lines_count in K2. simpl in K1, K2.
  exists k, n. split; [lia|apply artifact_path_eq].
Qed.

Lemma artifact_paths_are_distinct_witness :
  let P := Demo.steady Demo.env_ok in
  exists evs,
    trace (snd (after P [u "Krishna: hi"; u "Krishna: hi"] {| ext := []; trace := [] |}))
    = evs
    /\ In (u "voice_overs/002_Krishna.mp3") (writes evs)
    /\ NoDup (writes evs).
Proof.
  cbv zeta.
  destruct (artifact_paths_are_distinct (Demo.steady Demo.env_ok)
              [u "Krishna: hi"; u "Krishna: hi"] {| ext := []; trace := [] |})
    as (evs & T & N & _ & B).
  exists evs. split; [exact T|].
  assert (K : In (u "voice_overs/002_Krishna.mp3") (writes evs)).
  { vm_compute in T. subst evs. right. now left. }
  pose proof (B _ K) as _. split; [exact K|exact N].
Defined.

(** ** The resolver, the initialisation and the clearing *)

Section ResolverFacts.

Context {PS : Type} (P : Platform PS).

Lemma line_error_not_not_configured (n n' : nat) (c c' m : str) :
  line_error_entry n c m <> not_configured_entry n' c'.
Proof.
  unfold line_error_entry, not_configured_entry. intros E.
  apply app_inv_head in E.
  apply (digits_then _ _ SP COLON) in E as (_ & E & _);
    auto using str_of_nat_digits; discriminate.
Qed.

(** The events of the initialisation. *)
Lemma initialize_vertex_ai_events (w : World PS) :
  exists evs,
    trace (snd (initialize_vertex_ai P w)) = trace w ++ evs
    /\ per_line_calls evs = [] /\ removals evs = []
    /\ length (init_calls evs) <= 1
    /\ (init_calls evs = [] -> fst (initialize_vertex_ai P w) <> Ok tt).
Proof.
  unfold initialize_vertex_ai.
  destruct (environ_get P (u "GCP_PROJECT_ID")) as [pid|].
  2:{ exists []. cbn [fst snd ret]. rewrite app_nil_r. repeat split; auto.
      discriminate. }
  destruct (truthy pid).
  2:{ exists []. cbn [fst snd ret]. rewrite app_nil_r. repeat split; auto.
      discriminate. }
  unfold bind, call, print, ret. cbn [ext trace].
  destruct (vertexai_init P pid _ (ext w)) as [[[]|e0] s1]; cbn [fst snd trace].
  - eexists [_; _; _]. rewrite <- !app_assoc. repeat split; auto. discriminate.
  - eexists [_; _]. rewrite <- !app_assoc. repeat split; auto. discriminate.
Qed.

Lemma only_per_line_calls (evs : list Event) :
  per_line_calls evs = evs ->
  init_calls evs = [] /\ removals evs = [] /\ prints evs = [].
Proof.
  induction evs as [|e evs IH]; [auto|].
  unfold per_line_calls. cbn [filter]. intros H.
  destruct e; try (exfalso;
    pose proof (filter_length_le
      (fun e => match e with
                | FromPretrained _ | Predict _ _ | WriteFile _ _ _ => true
                | _ => false
                end) evs) as L;
    rewrite H in L; simpl in L; lia);
    inversion H as [H']; rewrite H'; simpl; apply IH; exact H'.
Qed.

(** The events of the sweep: deletions, and one line printed for each
    that failed, naming the file. *)
Lemma remove_all_events (filenames : list str) (k : nat) (w : World PS) :
  exists evs,
    trace (snd (remove_all P filenames k w)) = trace w ++ evs
    /\ Forall (fun e =>
                 (exists f d, In f filenames
                              /\ e = Remove (path_join (OUTPUT_DIR P) f) d)
                 \/ (exists f m, In f filenames
                                 /\ e = Print (u "Error deleting file " ++ f
                                               ++ u ": " ++ m))) evs.
Proof.
  revert k w. induction filenames as [|f rest IH]; intros k w.
  - exists []. simpl. rewrite app_nil_r. auto.
  - assert (W : forall evs,
               Forall (fun e =>
                 (exists f0 d, In f0 rest
                               /\ e = Remove (path_join (OUTPUT_DIR P) f0) d)
                 \/ (exists f0 m, In f0 rest
                                  /\ e = Print (u "Error deleting file " ++ f0
                                                ++ u ": " ++ m))) evs ->
               Forall (fun e =>
                 (exists f0 d, In f0 (f :: rest)
                               /\ e = Remove (path_join (OUTPUT_DIR P) f0) d)
                 \/ (exists f0 m, In f0 (f :: rest)
                                  /\ e = Print (u "Error deleting file " ++ f0
                                                ++ u ": " ++ m))) evs).
    { intros evs. apply Forall_impl.
      intros e [(f0 & d & H0 & ->)|(f0 & m & H0 & ->)]; [left|right];
        eexists _, _; (split; [right; exact H0|reflexivity]). }
    cbn [remove_all]. unfold bind, call, print.
    destruct (remove P (path_join (OUTPUT_DIR P) f) (ext w)) as [[[]|e] s1];
      cbn [ext trace is_ok].
    + match goal with
      | |- context [remove_all P rest ?k' ?w1] =>
          destruct (IH k' w1) as (evs & T & F)
      end.
      exists (Remove (path_join (OUTPUT_DIR P) f) true :: evs).
      rewrite T. cbn [trace]. rewrite <- app_assoc. split; [reflexivity|].
      constructor; auto. left. exists f, true. split; [now left|reflexivity].
    + match goal with
      | |- context [remove_all P rest ?k' ?w1] =>
          destruct (IH k' w1) as (evs & T & F)
      end.
      exists (Remove (path_join (OUTPUT_DIR P) f) false
              :: Print (u "Error deleting file " ++ f ++ u ": " ++ e) :: evs).
      rewrite T. cbn [trace]. rewrite <- !app_assoc. split; [reflexivity|].
      constructor; [|constructor]; auto.
      * left. exists f, false. split; [now left|reflexivity].
      * right. exists f, e. split; [now left|reflexivity].
Qed.

End ResolverFacts.

(** X20.  The entry [not configured] is recorded for a parsed line
    exactly when its character name is no key of the registry: a
    configured character never gets it, whatever else fails. *)
Theorem not_configured_exactly_when_unregistered {PS} (P : Platform PS)
    (i : nat) (raw : str) (r : DialogueRecord) (st : LoopState) (w : World PS) :
  parse_line i raw = Dialogue r ->
  (error_summary (fst (loop_body P i raw st w))
   = error_summary st ++ [not_configured_entry (i + 1) (character r)]
   <-> ~ In (character r) (map fst CHARACTER_VOICES)).
Proof.
  intros Hp. destruct (parse_line_dialogue i raw r Hp) as (_ & Hn & _).
  rewrite loop_body_parse, Hp. split.
  - intros E K.
    destruct (process_record_entry P r (count_line st) w)
      as [H|[(H & _)|(v & m & _ & H)]]; cbv zeta in H.
    + rewrite H in E. cbn [count_line error_summary] in E.
      apply (f_equal (@length str)) in E.
      rewrite length_app in E. cbn [length] in E. lia.
    + now apply dict_get_none in H.
    + rewrite H in E. cbn [count_line error_summary] in E.
      apply app_inv_head in E.
      assert (E' : line_error_entry (line_number r) (character r) m
                   = not_configured_entry (i + 1) (character r)) by congruence.
      exact (line_error_not_not_configured _ _ _ _ _ E').
  - intros K. apply dict_get_none in K.
    rewrite (process_record_unconfigured P r _ w K), Hn. reflexivity.
Qed.

Lemma not_configured_exactly_when_unregistered_witness :
  let P := Demo.platform Demo.env_ok (u "text-to-speech-en-in-wavenet-d") in
  error_summary (fst (loop_body P 0 (u "radha: hi") initial_state (Demo.world None)))
  = [u "Line 1: Character 'radha' not configured."].
Proof.
  cbv zeta.
  apply (proj2 (not_configured_exactly_when_unregistered
                  (Demo.platform Demo.env_ok (u "text-to-speech-en-in-wavenet-d"))
                  0 (u "radha: hi")
                  {| line_number := 1; character := u "radha";
                     original_text := u "hi"; cleaned_text := u "hi" |}
                  initial_state (Demo.world None) eq_refl)).
  vm_compute. intuition discriminate.
Defined.

(** X13.  Clearing touches nothing but the listed files: every call it
    makes is the deletion of a listed name inside the output directory,
    or the printing of the failure of one, which names the file; it never
    calls the client, initialises the provider or writes a file, and it
    counts no more deletions than names listed.  It can raise: when the
    output path exists but cannot be listed, the exception of the listing
    leaves the function, nothing having been deleted or printed. *)
Theorem clear_only_removes_listed_files {PS} (P : Platform PS) (w : World PS) :
  path_exists P (OUTPUT_DIR P) (ext w) = true ->
  (forall filenames,
      listdir P (OUTPUT_DIR P) (ext w) = Ok filenames ->
      exists evs,
        trace (snd (clear_generated_files P w)) = trace w ++ evs
        /\ Forall (fun e =>
                     (exists f d, In f filenames
                                  /\ e = Remove (path_join (OUTPUT_DIR P) f) d)
                     \/ (exists f m, In f filenames
                                     /\ e = Print (u "Error deleting file " ++ f
                                                   ++ u ": " ++ m))) evs
        /\ per_line_calls evs = [] /\ init_calls evs = []
        /\ length (filter snd (removals evs)) <= length filenames)
  /\ (forall e,
        listdir P (OUTPUT_DIR P) (ext w) = Raised e ->
        clear_generated_files P w = (Raised e, w)).
Proof.
  intros X. split.
  - intros filenames L.
    destruct (remove_all_events P filenames 0 w) as (evs & T & F).
    destruct (remove_all_sweep P filenames 0 w) as (w' & evs' & E & T' & R & _).
    rewrite E in T. cbn [snd] in T. rewrite T' in T. apply app_inv_head in T.
    subst evs'.
    exists evs. unfold clear_generated_files. rewrite X, L. cbn [negb]. rewrite E.
    cbn [snd]. split; [exact T'|]. split; [exact F|].
    assert (K : per_line_calls evs = [] /\ init_calls evs = []).
    { clear - F. induction F as [|e evs H F IH]; [auto|].
      destruct IH as [I1 I2].
      destruct H as [(f & d & _ & ->)|(f & m & _ & ->)]; simpl; auto. }
    destruct K as [K1 K2]. repeat split; auto.
    pose proof (filter_length_le snd (removals evs)) as Lf.
    rewrite <- (length_map fst (removals evs)), R, length_map in Lf. exact Lf.
  - intros e L. unfold clear_generated_files. now rewrite X, L.
Qed.

Lemma clear_only_removes_listed_files_witness :
  let P := Demo.platform Demo.env_ok (u "none") in
  let w := Demo.world (Some [u "voice_overs/001_Krishna.mp3"; u "voice_overs/x.locked"]) in
  path_exists P (OUTPUT_DIR P) (ext w) = true
  /\ listdir P (OUTPUT_DIR P) (ext w) = Ok [u "001_Krishna.mp3"; u "x.locked"]
  /\ exists evs,
      trace (snd (clear_generated_files P w)) = trace w ++ evs
      /\ per_line_calls evs = []
      /\ length (filter snd (removals evs)) <= 2.
Proof.
  cbv zeta. split; [reflexivity|]. split; [reflexivity|].
  destruct (proj1 (clear_only_removes_listed_files
                     (Demo.platform Demo.env_ok (u "none"))
                     (Demo.world (Some [u "voice_overs/001_Krishna.mp3";
                                        u "voice_overs/x.locked"])) eq_refl)
              [u "001_Krishna.mp3"; u "x.locked"] eq_refl)
    as (evs & T & _ & K & _ & L).
  exists evs. split; [exact T|]. split; [exact K|exact L].
Defined.

(** X14.  The provider is initialised first and once: whatever the
    upload, the calls of a batch are those of the initialisation, at most
    one call of [vertexai.init] among them, followed by the calls of the
    client for the lines; when the client is called at all,
    [vertexai.init] was called before; and a batch deletes nothing. *)
Theorem initialisation_comes_first {PS} (P : Platform PS)
    (script_file_obj : option ScriptFile) (w : World PS) :
  exists init_evs line_evs,
    trace (snd (generate_voice_over P script_file_obj w))
    = trace w ++ init_evs ++ line_evs
    /\ per_line_calls init_evs = []
    /\ per_line_calls line_evs = line_evs
    /\ length (init_calls (init_evs ++ line_evs)) <= 1
    /\ removals (init_evs ++ line_evs) = []
    /\ (line_evs = [] \/ length (init_calls init_evs) = 1).
Proof.
  assert (Z : exists init_evs line_evs : list Event,
             trace w = trace w ++ init_evs ++ line_evs
             /\ per_line_calls init_evs = []
             /\ per_line_calls line_evs = line_evs
             /\ length (init_calls (init_evs ++ line_evs)) <= 1
             /\ removals (init_evs ++ line_evs) = []
             /\ (line_evs = [] \/ length (init_calls init_evs) = 1)).
  { exists [], []. rewrite app_nil_r. repeat split; auto. }
  unfold generate_voice_over. destruct script_file_obj as [f|]; [|exact Z].
  destruct (negb (endswith _ _)); [exact Z|]. unfold bind, ret.
  destruct (initialize_vertex_ai_events P w) as (ievs & T & C & R & L & S).
  destruct (initialize_vertex_ai P w) as [[[]|e] w1]; cbn [fst snd] in *.
  2:{ exists ievs, []. rewrite app_nil_r. repeat split; auto. }
  destruct (read_decoded f) as [content|e].
  2:{ exists ievs, []. rewrite app_nil_r. repeat split; auto. }
  destruct (for_lines_trace P 0 (splitlines content) initial_state w1)
    as (levs & T' & C' & _).
  destruct (for_lines P 0 (splitlines content) initial_state w1) as [st w2].
  cbn [fst snd] in *.
  destruct (only_per_line_calls levs C') as (I & R' & _).
  assert (N1 : length (init_calls ievs) = 1).
  { destruct (init_calls ievs) as [|c [|c' t]]; simpl in L; try lia; auto.
    now destruct S. }
  exists ievs, levs. rewrite T', T, <- app_assoc.
  split; [reflexivity|]. split; [exact C|]. split; [exact C'|].
  unfold init_calls, removals in *.
  rewrite !flat_map_app, length_app, I, R, R', N1. auto.
Qed.
